(** * The frontend API client (dsp_frontend/src/api/client.js)

    A shallow embedding of the three exported functions of the client
    module, [getBackendBaseUrl], [apiPost] and [apiGet], together with the
    part of the JavaScript platform they call (strings, JSON, the Fetch
    [Response] and [Headers] objects), and the properties of the
    specification stated and settled over it.

    Conventions.  A JavaScript string is a [string] holding the UTF-8
    encoding of its text (a surrogate that stands alone is encoded like
    any other code point).  An object used as a map (the request headers,
    [process.env]) is a [gmap string _].  An [async] function is a program
    of the [Async] type below: it suspends at [await fetch(..)] and ends by
    resolving or rejecting. *)

From Stdlib Require Import ZArith NArith Ascii String List Bool Lia.
From stdpp Require Import base option gmap strings list fin_maps.

Local Open Scope string_scope.
Local Open Scope Z_scope.

#[local] Set Warnings "-register-all".

(** ** Strings *)

Module JSString.

Definition code (a : ascii) : N := N_of_ascii a.

(** The one-byte members of ECMAScript's WhiteSpace and LineTerminator:
    TAB, LF, VT, FF, CR and SPACE. *)
Definition ws1 (a : ascii) : bool :=
  let c := code a in
  ((9 <=? c) && (c <=? 13) || (c =? 32))%N.

(** U+00A0 NO-BREAK SPACE, encoded C2 A0. *)
Definition ws2 (a b : ascii) : bool :=
  ((code a =? 194) && (code b =? 160))%N.

(** The three-byte members: U+1680, U+2000..U+200A, U+2028, U+2029,
    U+202F, U+205F, U+3000 and U+FEFF. *)
Definition ws3 (a b c : ascii) : bool :=
  let x := code a in
  let y := code b in
  let z := code c in
  ((x =? 225) && (y =? 154) && (z =? 128)
   || (x =? 226) && (y =? 128)
      && ((128 <=? z) && (z <=? 138) || (z =? 168) || (z =? 169) || (z =? 175))
   || (x =? 226) && (y =? 129) && (z =? 159)
   || (x =? 227) && (y =? 128) && (z =? 128)
   || (x =? 239) && (y =? 187) && (z =? 191))%N.

(** [String.prototype.trimStart]: drop white space from the front. *)
Fixpoint trimStart (s : string) : string :=
  match s with
  | String a s1 =>
      if ws1 a then trimStart s1 else
      match s1 with
      | String b s2 =>
          if ws2 a b then trimStart s2 else
          match s2 with
          | String c s3 => if ws3 a b c then trimStart s3 else s
          | EmptyString => s
          end
      | EmptyString => s
      end
  | EmptyString => s
  end.

(** The same scan over the reversed text, where the bytes of one
    character come last byte first. *)
Fixpoint trimStart_rev (s : string) : string :=
  match s with
  | String a s1 =>
      if ws1 a then trimStart_rev s1 else
      match s1 with
      | String b s2 =>
          if ws2 b a then trimStart_rev s2 else
          match s2 with
          | String c s3 => if ws3 c b a then trimStart_rev s3 else s
          | EmptyString => s
          end
      | EmptyString => s
      end
  | EmptyString => s
  end.

(** [String.prototype.trimEnd]. *)
Definition trimEnd (s : string) : string :=
  String.rev (trimStart_rev (String.rev s)).

(** [String.prototype.trim]. *)
Definition trim (s : string) : string := trimEnd (trimStart s).

(** [s.length > 0]: the number of code units of a text is positive
    exactly when its encoding has a byte. *)
Definition length_positive (s : string) : bool :=
  (0 <? String.length s)%nat.

(** [ToBoolean] on a string: only the empty string is falsy. *)
Definition ToBoolean (s : string) : bool :=
  match s with
  | EmptyString => false
  | String _ _ => true
  end.

(** [String.prototype.includes]: [includes t s] is [s.includes(t)]. *)
Fixpoint includes (t s : string) : bool :=
  String.prefix t s
  || match s with
     | EmptyString => false
     | String _ s' => includes t s'
     end.

End JSString.

(** ** The environment and the base URL *)

(** [process.env]: the variables that are set, by name. *)
Abbreviation ProcessEnv := (gmap string string).

Definition REACT_APP_BACKEND_URL : string := "REACT_APP_BACKEND_URL".

(** [getBackendBaseUrl()], reading [process.env] as it is at the call.
    The lookup gives [None] for [undefined]. *)
Definition getBackendBaseUrl (env : ProcessEnv) : string :=
  let envUrl := env !! REACT_APP_BACKEND_URL in
  match envUrl with
  | Some s =>
      if JSString.ToBoolean s && JSString.length_positive (JSString.trim s)
      then s
      else "http://localhost:3001"
  | None => "http://localhost:3001"
  end.

(** ** Values *)

(** The Number type is IEEE binary64, which this development leaves
    abstract: it is used through the four operations the client's
    platform calls reach.  Every theorem below holds for every model. *)
Class NumberModel := {
  Number : Type;
  (** the value of a JSON number literal *)
  StringToNumber : string -> Number;
  (** Number::toString in radix 10 *)
  NumberToString : Number -> string;
  (** false on NaN, +Infinity and -Infinity *)
  NumberIsFinite : Number -> bool;
  (** false on +0, -0 and NaN *)
  NumberToBoolean : Number -> bool;
}.

(** A model for evaluating examples: a number is the text of its
    literal.  It agrees with binary64 on literals that are already the
    canonical decimal text of a finite Number. *)
Module LiteralNumber.

Definition is_nonzero_digit (a : ascii) : bool :=
  ((49 <=? JSString.code a) && (JSString.code a <=? 57))%N.

Definition is_exponent_mark (a : ascii) : bool :=
  ((JSString.code a =? 101) || (JSString.code a =? 69))%N.

(** Some digit before the exponent is not zero. *)
Fixpoint nonzero (s : string) : bool :=
  match s with
  | EmptyString => false
  | String a s' =>
      if is_exponent_mark a then false
      else is_nonzero_digit a || nonzero s'
  end.

End LiteralNumber.

Definition LiteralNumbers : NumberModel := {|
  Number := string;
  StringToNumber := fun s => s;
  NumberToString := fun s => s;
  NumberIsFinite := fun _ => true;
  NumberToBoolean := LiteralNumber.nonzero;
|}.

Section Values.

Context {NM : NumberModel}.

(** The values the client handles: [undefined] and the values of JSON.
    An object lists its own properties in the order the engine
    enumerates them. *)
Inductive JSValue : Type :=
| VUndefined
| VNull
| VBoolean (b : bool)
| VNumber (n : Number)
| VString (s : string)
| VArray (elements : list JSValue)
| VObject (properties : list (string * JSValue)).

(** The [typeof] operator. *)
Definition typeof (v : JSValue) : string :=
  match v with
  | VUndefined => "undefined"
  | VNull => "object"
  | VBoolean _ => "boolean"
  | VNumber _ => "number"
  | VString _ => "string"
  | VArray _ => "object"
  | VObject _ => "object"
  end.

(** Truthiness, as [if (v)] and [v || w] test it. *)
Definition ToBoolean (v : JSValue) : bool :=
  match v with
  | VUndefined => false
  | VNull => false
  | VBoolean b => b
  | VNumber n => NumberToBoolean n
  | VString s => JSString.ToBoolean s
  | VArray _ => true
  | VObject _ => true
  end.

(** [ToString], as a template literal applies it.  An array joins its
    elements with commas, [null] and [undefined] elements as the empty
    string; a plain object is ["[object Object]"]. *)
Fixpoint ToString (v : JSValue) : string :=
  match v with
  | VUndefined => "undefined"
  | VNull => "null"
  | VBoolean true => "true"
  | VBoolean false => "false"
  | VNumber n => NumberToString n
  | VString s => s
  | VArray l =>
      (fix join (l : list JSValue) : string :=
         match l with
         | [] => ""
         | x :: l' =>
             let e := match x with
                      | VUndefined | VNull => ""
                      | _ => ToString x
                      end in
             match l' with
             | [] => e
             | _ :: _ => e +:+ "," +:+ join l'
             end
         end) l
  | VObject _ => "[object Object]"
  end.

(** [v ?? w]. *)
Definition nullish_coalesce (v w : JSValue) : JSValue :=
  match v with
  | VUndefined | VNull => w
  | _ => v
  end.

End Values.

Arguments JSValue {NM}.

(** ** JSON *)

Module JSON.

Import JSString.

(** *** Text encoding of the code units an escape denotes *)

Definition byte (n : N) : ascii := ascii_of_N n.

(** The encoding of one code point; a surrogate that is not part of a
    pair is encoded like any other three-byte code point. *)
Definition utf8 (cp : N) : string :=
  (if cp <? 128 then String (byte cp) ""
   else if cp <? 2048 then
     String (byte (192 + cp / 64)) (String (byte (128 + cp mod 64)) "")
   else if cp <? 65536 then
     String (byte (224 + cp / 4096))
       (String (byte (128 + (cp / 64) mod 64))
          (String (byte (128 + cp mod 64)) ""))
   else
     String (byte (240 + cp / 262144))
       (String (byte (128 + (cp / 4096) mod 64))
          (String (byte (128 + (cp / 64) mod 64))
             (String (byte (128 + cp mod 64)) ""))))%N.

Definition is_high_surrogate (u : N) : bool := ((55296 <=? u) && (u <=? 56319))%N.
Definition is_low_surrogate (u : N) : bool := ((56320 <=? u) && (u <=? 57343))%N.

(** What a string literal holds: bytes taken from the text as they
    are, and code units written as escapes. *)
Inductive StrItem : Type :=
| Raw (a : ascii)
| Unit (u : N).

Fixpoint decode_items (l : list StrItem) : string :=
  match l with
  | [] => ""
  | Raw a :: l1 => String a (decode_items l1)
  | Unit u :: l1 =>
      match l1 with
      | Unit v :: l2 =>
          if is_high_surrogate u && is_low_surrogate v
          then utf8 (65536 + (u - 55296) * 1024 + (v - 56320))%N
                 +:+ decode_items l2
          else utf8 u +:+ decode_items l1
      | _ => utf8 u +:+ decode_items l1
      end
  end.

Definition hex_value (a : ascii) : option N :=
  let c := code a in
  (if (48 <=? c) && (c <=? 57) then Some (c - 48)
   else if (97 <=? c) && (c <=? 102) then Some (c - 87)
   else if (65 <=? c) && (c <=? 70) then Some (c - 55)
   else None)%N.

Definition hex_digit (n : N) : ascii :=
  (if n <? 10 then byte (48 + n) else byte (87 + n))%N.

(** Four lower-case hexadecimal digits. *)
Definition hex4 (n : N) : string :=
  (String (hex_digit ((n / 4096) mod 16))
     (String (hex_digit ((n / 256) mod 16))
        (String (hex_digit ((n / 16) mod 16))
           (String (hex_digit (n mod 16)) ""))))%N.

(** *** Tokens *)

Inductive Token : Type :=
| TLBrace | TRBrace | TLBracket | TRBracket | TColon | TComma
| TNull | TTrue | TFalse
| TNumber (lexeme : string)
| TString (s : string).

(** Where the scan of a number literal stands.  A literal is an
    optional minus, then a zero or a digit string that does not begin
    with zero, then optionally a dot and digits, then optionally an
    exponent mark, an optional sign and digits. *)
Inductive NumState : Type :=
| NMinus | NZero | NInt | NDot | NFrac | NExp | NExpSign | NExpInt.

Definition num_accepting (st : NumState) : bool :=
  match st with
  | NZero | NInt | NFrac | NExpInt => true
  | NMinus | NDot | NExp | NExpSign => false
  end.

Definition is_digit (a : ascii) : bool :=
  ((48 <=? code a) && (code a <=? 57))%N.

Definition is_e (a : ascii) : bool :=
  ((code a =? 101) || (code a =? 69))%N.

Definition is_sign (a : ascii) : bool :=
  ((code a =? 43) || (code a =? 45))%N.

Definition is_dot (a : ascii) : bool := (code a =? 46)%N.

Definition is_quote (a : ascii) : bool := (code a =? 34)%N.

Definition is_backslash (a : ascii) : bool := (code a =? 92)%N.

(** The quotation mark, as a text. *)
Definition quote : string := String (byte 34) "".

(** The next state when [a] continues the literal, [None] when it does
    not. *)
Definition num_step (st : NumState) (a : ascii) : option NumState :=
  match st with
  | NMinus =>
      if (code a =? 48)%N then Some NZero
      else if is_digit a then Some NInt else None
  | NZero =>
      if is_dot a then Some NDot else if is_e a then Some NExp else None
  | NInt =>
      if is_digit a then Some NInt
      else if is_dot a then Some NDot
      else if is_e a then Some NExp else None
  | NDot => if is_digit a then Some NFrac else None
  | NFrac =>
      if is_digit a then Some NFrac else if is_e a then Some NExp else None
  | NExp =>
      if is_sign a then Some NExpSign
      else if is_digit a then Some NExpInt else None
  | NExpSign => if is_digit a then Some NExpInt else None
  | NExpInt => if is_digit a then Some NExpInt else None
  end.

(** The scanner is a machine over the bytes of the text.  Texts that
    are being collected are kept last byte first. *)
Inductive LexMode : Type :=
| LDefault
| LLiteral (expect : string) (tok : Token)
| LNumber (st : NumState) (acc : string)
| LString (acc : list StrItem)
| LEscape (acc : list StrItem)
| LUnicode (acc : list StrItem) (remaining : nat) (value : N).

Definition LexState : Type := LexMode * list Token.

(** JSON white space: TAB, LF, CR and SPACE. *)
Definition is_json_ws (a : ascii) : bool :=
  let c := code a in
  ((c =? 9) || (c =? 10) || (c =? 13) || (c =? 32))%N.

Definition lex_default (a : ascii) (toks : list Token) : option LexState :=
  if is_json_ws a then Some (LDefault, toks) else
  if is_quote a then Some (LString [], toks) else
  match a with
  | "{"%char => Some (LDefault, TLBrace :: toks)
  | "}"%char => Some (LDefault, TRBrace :: toks)
  | "["%char => Some (LDefault, TLBracket :: toks)
  | "]"%char => Some (LDefault, TRBracket :: toks)
  | ":"%char => Some (LDefault, TColon :: toks)
  | ","%char => Some (LDefault, TComma :: toks)
  | "n"%char => Some (LLiteral "ull" TNull, toks)
  | "t"%char => Some (LLiteral "rue" TTrue, toks)
  | "f"%char => Some (LLiteral "alse" TFalse, toks)
  | "-"%char => Some (LNumber NMinus (String a ""), toks)
  | "0"%char => Some (LNumber NZero (String a ""), toks)
  | _ => if is_digit a then Some (LNumber NInt (String a ""), toks) else None
  end.

Definition lex_escape (a : ascii) (acc : list StrItem) : option LexMode :=
  if is_quote a then Some (LString (Unit 34 :: acc)) else
  match a with
  | "\"%char => Some (LString (Unit 92 :: acc))
  | "/"%char => Some (LString (Unit 47 :: acc))
  | "b"%char => Some (LString (Unit 8 :: acc))
  | "f"%char => Some (LString (Unit 12 :: acc))
  | "n"%char => Some (LString (Unit 10 :: acc))
  | "r"%char => Some (LString (Unit 13 :: acc))
  | "t"%char => Some (LString (Unit 9 :: acc))
  | "u"%char => Some (LUnicode acc 4 0%N)
  | _ => None
  end.

Definition lex_step (st : LexState) (a : ascii) : option LexState :=
  let '(mode, toks) := st in
  match mode with
  | LDefault => lex_default a toks
  | LLiteral expect tok =>
      match expect with
      | String e rest =>
          if Ascii.eqb a e then
            match rest with
            | EmptyString => Some (LDefault, tok :: toks)
            | String _ _ => Some (LLiteral rest tok, toks)
            end
          else None
      | EmptyString => None
      end
  | LNumber ns acc =>
      match num_step ns a with
      | Some ns' => Some (LNumber ns' (String a acc), toks)
      | None =>
          if num_accepting ns
          then lex_default a (TNumber (String.rev acc) :: toks)
          else None
      end
  | LString acc =>
      if is_quote a
      then Some (LDefault, TString (decode_items (rev acc)) :: toks)
      else if is_backslash a then Some (LEscape acc, toks)
      else if (code a <? 32)%N then None
      else Some (LString (Raw a :: acc), toks)
  | LEscape acc =>
      match lex_escape a acc with
      | Some mode' => Some (mode', toks)
      | None => None
      end
  | LUnicode acc remaining value =>
      match hex_value a with
      | Some h =>
          let value' := (16 * value + h)%N in
          match remaining with
          | S (S r) => Some (LUnicode acc (S r) value', toks)
          | _ => Some (LString (Unit value' :: acc), toks)
          end
      | None => None
      end
  end.

Fixpoint lex_run (st : LexState) (s : string) : option LexState :=
  match s with
  | EmptyString => Some st
  | String a s' =>
      match lex_step st a with
      | Some st' => lex_run st' s'
      | None => None
      end
  end.

(** At the end of the text nothing may be left open but a number. *)
Definition lex_finish (st : LexState) : option (list Token) :=
  let '(mode, toks) := st in
  match mode with
  | LDefault => Some (rev toks)
  | LNumber ns acc =>
      if num_accepting ns then Some (rev (TNumber (String.rev acc) :: toks))
      else None
  | _ => None
  end.

Definition tokenize (s : string) : option (list Token) :=
  match lex_run (LDefault, []) s with
  | Some st => lex_finish st
  | None => None
  end.

(** *** Objects under construction *)

Definition all_digits (s : string) : bool :=
  forallb is_digit (list_ascii_of_string s).

Fixpoint digits_value (acc : N) (s : string) : N :=
  match s with
  | EmptyString => acc
  | String a s' => digits_value (10 * acc + (code a - 48))%N s'
  end.

(** An array index is a key that is the canonical decimal text of an
    integer below 2^32 - 1. *)
Definition array_index (k : string) : option N :=
  match k with
  | EmptyString => None
  | String a rest =>
      if all_digits k
         && (negb (code a =? 48)%N || String.eqb rest "")
         && (String.length k <=? 10)%nat
         && (digits_value 0 k <? 4294967295)%N
      then Some (digits_value 0 k)
      else None
  end.

Section Parse.

Context {NM : NumberModel}.

Definition has_key (k : string) (ps : list (string * JSValue)) : bool :=
  existsb (fun p => String.eqb (fst p) k) ps.

Fixpoint replace_value (k : string) (v : JSValue)
    (ps : list (string * JSValue)) : list (string * JSValue) :=
  match ps with
  | [] => []
  | (k', v') :: ps' =>
      if String.eqb k' k then (k', v) :: ps'
      else (k', v') :: replace_value k v ps'
  end.

(** Array-index keys come first, in ascending order. *)
Fixpoint insert_index (i : N) (k : string) (v : JSValue)
    (ps : list (string * JSValue)) : list (string * JSValue) :=
  match ps with
  | [] => [(k, v)]
  | (k', v') :: ps' =>
      match array_index k' with
      | Some j =>
          if (j <? i)%N then (k', v') :: insert_index i k v ps'
          else (k, v) :: ps
      | None => (k, v) :: ps
      end
  end.

(** [CreateDataProperty(obj, k, v)] on a plain object: an own
    property keeps its place and takes the new value; a new
    array-index key goes among the indices; any other new key goes
    last. *)
Definition define_property (k : string) (v : JSValue)
    (ps : list (string * JSValue)) : list (string * JSValue) :=
  if has_key k ps then replace_value k v ps
  else match array_index k with
       | Some i => insert_index i k v ps
       | None => ps ++ [(k, v)]
       end.

(** *** Parsing, a machine over the tokens *)

(** A container that is waiting for the value being read. *)
Inductive Frame : Type :=
| FArray (done : list JSValue)
| FObject (done : list (string * JSValue)) (key : string).

Inductive ParseMode : Type :=
| PValue
| PArrayStart
| PObjectStart
| PKey (done : list (string * JSValue))
| PColon (done : list (string * JSValue)) (key : string)
| PDone (v : JSValue).

Definition ParseState : Type := ParseMode * list Frame.

Definition parse_value_token (t : Token) (stack : list Frame)
    : option ParseState :=
  match t with
  | TNull => Some (PDone VNull, stack)
  | TTrue => Some (PDone (VBoolean true), stack)
  | TFalse => Some (PDone (VBoolean false), stack)
  | TNumber lexeme => Some (PDone (VNumber (StringToNumber lexeme)), stack)
  | TString s => Some (PDone (VString s), stack)
  | TLBracket => Some (PArrayStart, stack)
  | TLBrace => Some (PObjectStart, stack)
  | TRBrace | TRBracket | TColon | TComma => None
  end.

Definition parse_step (st : ParseState) (t : Token) : option ParseState :=
  let '(mode, stack) := st in
  match mode with
  | PValue => parse_value_token t stack
  | PArrayStart =>
      match t with
      | TRBracket => Some (PDone (VArray []), stack)
      | _ => parse_value_token t (FArray [] :: stack)
      end
  | PObjectStart =>
      match t with
      | TRBrace => Some (PDone (VObject []), stack)
      | TString k => Some (PColon [] k, stack)
      | _ => None
      end
  | PKey done =>
      match t with
      | TString k => Some (PColon done k, stack)
      | _ => None
      end
  | PColon done k =>
      match t with
      | TColon => Some (PValue, FObject done k :: stack)
      | _ => None
      end
  | PDone v =>
      match stack with
      | [] => None
      | FArray done :: stack' =>
          match t with
          | TComma => Some (PValue, FArray (v :: done) :: stack')
          | TRBracket => Some (PDone (VArray (rev (v :: done))), stack')
          | _ => None
          end
      | FObject done k :: stack' =>
          match t with
          | TComma => Some (PKey (define_property k v done), stack')
          | TRBrace => Some (PDone (VObject (define_property k v done)), stack')
          | _ => None
          end
      end
  end.

Fixpoint parse_run (st : ParseState) (ts : list Token) : option ParseState :=
  match ts with
  | [] => Some st
  | t :: ts' =>
      match parse_step st t with
      | Some st' => parse_run st' ts'
      | None => None
      end
  end.

(** [JSON.parse(text)], [None] when it throws a SyntaxError. *)
Definition parse (text : string) : option JSValue :=
  match tokenize text with
  | Some ts =>
      match parse_run (PValue, []) ts with
      | Some (PDone v, []) => Some v
      | _ => None
      end
  | None => None
  end.

(** *** Serialising *)

(** [QuoteJSONString] without the enclosing quotes: the two-character
    escapes, [\u00xx] for the other control characters, [\udxxx] for
    a surrogate that stands alone, and everything else as it is. *)
Fixpoint quote_chars (s : string) : string :=
  match s with
  | EmptyString => ""
  | String a s1 =>
      let c := code a in
      let plain := String a (quote_chars s1) in
      if (c =? 8)%N then "\b" +:+ quote_chars s1
      else if (c =? 9)%N then "\t" +:+ quote_chars s1
      else if (c =? 10)%N then "\n" +:+ quote_chars s1
      else if (c =? 12)%N then "\f" +:+ quote_chars s1
      else if (c =? 13)%N then "\r" +:+ quote_chars s1
      else if (c =? 34)%N then "\" +:+ quote +:+ quote_chars s1
      else if (c =? 92)%N then "\\" +:+ quote_chars s1
      else if (c <? 32)%N then "\u" +:+ hex4 c +:+ quote_chars s1
      else if (c =? 237)%N then
        match s1 with
        | String b (String d s3) =>
            if (160 <=? code b)%N && (code b <=? 191)%N
            then "\u" +:+ hex4 (53248 + (code b - 128) * 64 + (code d - 128))%N
                   +:+ quote_chars s3
            else plain
        | _ => plain
        end
      else plain
  end.

Definition QuoteJSONString (s : string) : string :=
  quote +:+ quote_chars s +:+ quote.

Fixpoint join_comma (l : list string) : string :=
  match l with
  | [] => ""
  | [x] => x
  | x :: l' => x +:+ "," +:+ join_comma l'
  end.

(** [SerializeJSONProperty] with no replacer and no indentation;
    [None] is [undefined].  An array writes ["null"] for an element
    that has no serialisation; an object leaves such a property
    out. *)
Fixpoint serialize (v : JSValue) : option string :=
  match v with
  | VUndefined => None
  | VNull => Some "null"
  | VBoolean true => Some "true"
  | VBoolean false => Some "false"
  | VNumber n =>
      Some (if NumberIsFinite n then NumberToString n else "null")
  | VString s => Some (QuoteJSONString s)
  | VArray l =>
      let element x :=
        match serialize x with
        | Some t => t
        | None => "null"
        end in
      Some ("[" +:+ join_comma (List.map element l) +:+ "]")
  | VObject ps =>
      let member (p : string * JSValue) :=
        match serialize (snd p) with
        | Some t => [QuoteJSONString (fst p) +:+ ":" +:+ t]
        | None => []
        end in
      Some ("{" +:+ join_comma (List.concat (List.map member ps)) +:+ "}")
  end.

(** [JSON.stringify(v)]: a string, or [undefined]. *)
Definition stringify (v : JSValue) : JSValue :=
  match serialize v with
  | Some s => VString s
  | None => VUndefined
  end.

End Parse.

End JSON.

(** ** Errors and promises *)

(** The errors a call can end with: an [Error] the client constructs,
    the [SyntaxError] of [JSON.parse] (its message is the engine's own;
    the text that failed to parse is recorded), and the [TypeError] with
    which [fetch] fails when no response arrives. *)
Inductive JSError : Type :=
| Error (message : string)
| SyntaxError (text : string)
| TypeError (message : string).

(** How a promise settles. *)
Inductive Settled (A : Type) : Type :=
| Fulfilled (a : A)
| Rejected (e : JSError).

Arguments Fulfilled {A} a.
Arguments Rejected {A} e.

(** ** The Fetch API *)

Module Headers.

Definition lower (a : ascii) : ascii :=
  let c := JSString.code a in
  if ((65 <=? c) && (c <=? 90))%N then ascii_of_N (c + 32) else a.

Fixpoint lowercase (s : string) : string :=
  match s with
  | EmptyString => EmptyString
  | String a s' => String (lower a) (lowercase s')
  end.

Fixpoint join (l : list string) : string :=
  match l with
  | [] => ""
  | [x] => x
  | x :: l' => x +:+ ", " +:+ join l'
  end.

(** [headers.get(name)] on the header list of a response: the values
    of the headers of that name, compared without regard to case,
    joined by a comma and a space; [None] is [null]. *)
Definition get (headers : list (string * string)) (name : string)
    : option string :=
  let values :=
    List.map snd
      (List.filter
         (fun h => String.eqb (lowercase (fst h)) (lowercase name))
         headers) in
  match values with
  | [] => None
  | _ :: _ => Some (join values)
  end.

(** [h || ""] for the result of [get]. *)
Definition or_empty (h : option string) : string :=
  match h with
  | Some s => if JSString.ToBoolean s then s else ""
  | None => ""
  end.

End Headers.

Module Request.

Section Init.
Context {NM : NumberModel}.

(** The second argument of [fetch]. *)
Record t : Type := {
  method : string;
  headers : gmap string string;
  body : JSValue;
}.

End Init.

Arguments t {NM}.

End Request.

Module Response.

(** A response as the client reads it: [body] is the text of the body,
    which [text()] returns and [json()] parses. *)
Record t : Type := {
  status : Z;
  headers : list (string * string);
  body : string;
}.

(** The getter [resp.ok], as the Fetch standard defines it: the status
    is in the range 200 to 299. *)
Definition ok (resp : t) : bool :=
  (200 <=? status resp) && (status resp <=? 299).

Section Body.
Context {NM : NumberModel}.

(** The promise [resp.json()] returns. *)
Definition json (resp : t) : Settled JSValue :=
  match JSON.parse (body resp) with
  | Some v => Fulfilled v
  | None => Rejected (SyntaxError (body resp))
  end.

(** The promise [resp.text()] returns. *)
Definition text (resp : t) : Settled JSValue :=
  Fulfilled (VString (body resp)).

End Body.

End Response.

(** ** Asynchronous functions *)

Section Async.

Context {NM : NumberModel}.

(** The runs of an [async] function of this module: it returns, it
    throws, or it waits for [fetch] and goes on with the response. *)
Inductive Async (A : Type) : Type :=
| Resolve (a : A)
| Reject (e : JSError)
| Fetch (url : string) (init : Request.t) (k : Response.t -> Async A).

Arguments Resolve {A} a.
Arguments Reject {A} e.
Arguments Fetch {A} url init k.

Fixpoint Async_bind {A B : Type} (f : A -> Async B) (m : Async A) : Async B :=
  match m with
  | Resolve a => f a
  | Reject e => Reject e
  | Fetch url init k => Fetch url init (fun resp => Async_bind f (k resp))
  end.

#[global] Instance Async_mbind : MBind Async := @Async_bind.
#[global] Instance Async_mret : MRet Async := @Resolve.

(** [await fetch(url, init)]. *)
Definition fetch (url : string) (init : Request.t) : Async Response.t :=
  Fetch url init Resolve.

(** [await p] for a promise [p], and [return p]. *)
Definition await {A : Type} (p : Settled A) : Async A :=
  match p with
  | Fulfilled a => Resolve a
  | Rejected e => Reject e
  end.

(** [throw e]. *)
Definition throw {A : Type} (e : JSError) : Async A := Reject e.

(** [new Error(message)]. *)
Definition Error_new (message : JSValue) : JSError :=
  match message with
  | VUndefined => Error ""
  | _ => Error (ToString message)
  end.

(** The network: what the promise of [fetch] settles to for a request.
    It is rejected when no response arrives. *)
Definition Transport : Type := string -> Request.t -> Settled Response.t.

(** The promise a call returns, run against a network. *)
Fixpoint run {A : Type} (net : Transport) (p : Async A) : Settled A :=
  match p with
  | Resolve a => Fulfilled a
  | Reject e => Rejected e
  | Fetch url init k =>
      match net url init with
      | Fulfilled resp => run net (k resp)
      | Rejected e => Rejected e
      end
  end.

(** The requests a call issues, in order. *)
Fixpoint requests {A : Type} (net : Transport) (p : Async A)
    : list (string * Request.t) :=
  match p with
  | Resolve _ => []
  | Reject _ => []
  | Fetch url init k =>
      (url, init) ::
      match net url init with
      | Fulfilled resp => requests net (k resp)
      | Rejected _ => []
      end
  end.

End Async.

Arguments Async {NM} A.
Arguments Resolve {NM A} a.
Arguments Reject {NM A} e.
Arguments Fetch {NM A} url init k.
Arguments Transport {NM}.

(** ** The client *)

Section Client.

Context {NM : NumberModel}.

(** [apiPost(path, body, token)]. *)
Definition apiPost (env : ProcessEnv) (path : string) (body token : JSValue)
    : Async JSValue :=
  let base := getBackendBaseUrl env in
  let headers : gmap string string :=
    {[ "Content-Type" := "application/json" ]} in
  let headers :=
    if ToBoolean token
    then <[ "Authorization" := "Bearer " +:+ ToString token ]> headers
    else headers in
  resp ← fetch (base +:+ path) {|
    Request.method := "POST";
    Request.headers := headers;
    Request.body := JSON.stringify (nullish_coalesce body (VObject []));
  |};
  let contentType :=
    Headers.or_empty (Headers.get (Response.headers resp) "content-type") in
  if negb (Response.ok resp) then
    detail ← await (if JSString.includes "application/json" contentType
                    then Response.json resp else Response.text resp);
    throw (Error_new (if String.eqb (typeof detail) "string"
                      then detail else JSON.stringify detail))
  else
    await (if JSString.includes "application/json" contentType
           then Response.json resp else Response.text resp).

(** [apiGet(path, token)]. *)
Definition apiGet (env : ProcessEnv) (path : string) (token : JSValue)
    : Async JSValue :=
  let base := getBackendBaseUrl env in
  let headers : gmap string string := ∅ in
  let headers :=
    if ToBoolean token
    then <[ "Authorization" := "Bearer " +:+ ToString token ]> headers
    else headers in
  resp ← fetch (base +:+ path) {|
    Request.method := "GET";
    Request.headers := headers;
    Request.body := VUndefined;
  |};
  let contentType :=
    Headers.or_empty (Headers.get (Response.headers resp) "content-type") in
  if negb (Response.ok resp) then
    detail ← await (if JSString.includes "application/json" contentType
                    then Response.json resp else Response.text resp);
    throw (Error_new (if String.eqb (typeof detail) "string"
                      then detail else JSON.stringify detail))
  else
    await (if JSString.includes "application/json" contentType
           then Response.json resp else Response.text resp).

End Client.

(** ** The module in its surroundings *)

(** The functions again, with what the typed programs above leave out:
    reading [process.env] is an action of the call, and a call can in
    principle read and write state that outlives it.  A [Script] may do
    all of that; the client's scripts below are written from the same
    source lines. *)
Module InWorld.

Section Scripts.

Context {NM : NumberModel}.

(** What outlives a call: the environment of the process, and the state
    a module keeps from one call to the next (its module-level bindings
    and what they reach), by name. *)
Record World : Type := {
  process_env : ProcessEnv;
  retained : gmap string JSValue;
}.

Definition set_env (name value : string) (w : World) : World :=
  {| process_env := <[ name := value ]> (process_env w);
     retained := retained w |}.

Definition set_retained (name : string) (v : JSValue) (w : World) : World :=
  {| process_env := process_env w;
     retained := <[ name := v ]> (retained w) |}.

(** What a call does that can be observed from outside it. *)
Inductive Event : Type :=
| EReadEnv (name : string)
| ELoad (name : string)
| EStore (name : string) (v : JSValue)
| EFetch (url : string) (init : Request.t).

Inductive Script (A : Type) : Type :=
| SReturn (a : A)
| SThrow (e : JSError)
| SReadEnv (name : string) (k : option string -> Script A)
| SLoad (name : string) (k : option JSValue -> Script A)
| SStore (name : string) (v : JSValue) (k : Script A)
| SFetch (url : string) (init : Request.t) (k : Response.t -> Script A).

Arguments SReturn {A} a.
Arguments SThrow {A} e.
Arguments SReadEnv {A} name k.
Arguments SLoad {A} name k.
Arguments SStore {A} name v k.
Arguments SFetch {A} url init k.

Fixpoint Script_bind {A B : Type} (f : A -> Script B) (m : Script A) : Script B :=
  match m with
  | SReturn a => f a
  | SThrow e => SThrow e
  | SReadEnv name k => SReadEnv name (fun v => Script_bind f (k v))
  | SLoad name k => SLoad name (fun v => Script_bind f (k v))
  | SStore name v k => SStore name v (Script_bind f k)
  | SFetch url init k => SFetch url init (fun resp => Script_bind f (k resp))
  end.

#[global] Instance Script_mbind : MBind Script := @Script_bind.
#[global] Instance Script_mret : MRet Script := @SReturn.

(** [process.env.NAME]. *)
Definition read_env (name : string) : Script (option string) :=
  SReadEnv name SReturn.

(** [await fetch(url, init)]. *)
Definition fetch (url : string) (init : Request.t) : Script Response.t :=
  SFetch url init SReturn.

(** [await p] for a promise [p], and [return p]. *)
Definition await {A : Type} (p : Settled A) : Script A :=
  match p with
  | Fulfilled a => SReturn a
  | Rejected e => SThrow e
  end.

(** [throw e]. *)
Definition throw {A : Type} (e : JSError) : Script A := SThrow e.

(** A call run in a world: how it settles, the world it leaves, and
    what it did.  While the call is suspended at [await fetch(..)] the
    rest of the program runs and may change the world: [meanwhile]. *)
Fixpoint exec {A : Type} (net : Transport) (meanwhile : World -> World)
    (w : World) (p : Script A) : Settled A * World * list Event :=
  match p with
  | SReturn a => (Fulfilled a, w, [])
  | SThrow e => (Rejected e, w, [])
  | SReadEnv name k =>
      let '(r, w', t) := exec net meanwhile w (k (process_env w !! name)) in
      (r, w', EReadEnv name :: t)
  | SLoad name k =>
      let '(r, w', t) := exec net meanwhile w (k (retained w !! name)) in
      (r, w', ELoad name :: t)
  | SStore name v k =>
      let '(r, w', t) := exec net meanwhile (set_retained name v w) k in
      (r, w', EStore name v :: t)
  | SFetch url init k =>
      match net url init with
      | Fulfilled resp =>
          let '(r, w', t) := exec net meanwhile (meanwhile w) (k resp) in
          (r, w', EFetch url init :: t)
      | Rejected e => (Rejected e, meanwhile w, [EFetch url init])
      end
  end.

Definition outcome {A : Type} (x : Settled A * World * list Event) : Settled A :=
  fst (fst x).

Definition world_after {A : Type} (x : Settled A * World * list Event) : World :=
  snd (fst x).

Definition trace {A : Type} (x : Settled A * World * list Event) : list Event :=
  snd x.

(** [getBackendBaseUrl()]. *)
Definition getBackendBaseUrl : Script string :=
  envUrl ← read_env "REACT_APP_BACKEND_URL";
  mret (match envUrl with
        | Some s =>
            if JSString.ToBoolean s && JSString.length_positive (JSString.trim s)
            then s
            else "http://localhost:3001"
        | None => "http://localhost:3001"
        end).

(** [apiPost(path, body, token)]. *)
Definition apiPost (path : string) (body token : JSValue) : Script JSValue :=
  base ← getBackendBaseUrl;
  let headers : gmap string string :=
    {[ "Content-Type" := "application/json" ]} in
  let headers :=
    if ToBoolean token
    then <[ "Authorization" := "Bearer " +:+ ToString token ]> headers
    else headers in
  resp ← fetch (base +:+ path) {|
    Request.method := "POST";
    Request.headers := headers;
    Request.body := JSON.stringify (nullish_coalesce body (VObject []));
  |};
  let contentType :=
    Headers.or_empty (Headers.get (Response.headers resp) "content-type") in
  if negb (Response.ok resp) then
    detail ← await (if JSString.includes "application/json" contentType
                    then Response.json resp else Response.text resp);
    throw (Error_new (if String.eqb (typeof detail) "string"
                      then detail else JSON.stringify detail))
  else
    await (if JSString.includes "application/json" contentType
           then Response.json resp else Response.text resp).

(** [apiGet(path, token)]. *)
Definition apiGet (path : string) (token : JSValue) : Script JSValue :=
  base ← getBackendBaseUrl;
  let headers : gmap string string := ∅ in
  let headers :=
    if ToBoolean token
    then <[ "Authorization" := "Bearer " +:+ ToString token ]> headers
    else headers in
  resp ← fetch (base +:+ path) {|
    Request.method := "GET";
    Request.headers := headers;
    Request.body := VUndefined;
  |};
  let contentType :=
    Headers.or_empty (Headers.get (Response.headers resp) "content-type") in
  if negb (Response.ok resp) then
    detail ← await (if JSString.includes "application/json" contentType
                    then Response.json resp else Response.text resp);
    throw (Error_new (if String.eqb (typeof detail) "string"
                      then detail else JSON.stringify detail))
  else
    await (if JSString.includes "application/json" contentType
           then Response.json resp else Response.text resp).

End Scripts.

Arguments World {NM}.
Arguments Event {NM}.
Arguments Script {NM} A.
Arguments SReturn {NM A} a.
Arguments SThrow {NM A} e.
Arguments SReadEnv {NM A} name k.
Arguments SLoad {NM A} name k.
Arguments SStore {NM A} name v k.
Arguments SFetch {NM A} url init k.

End InWorld.

(** For contrast, not of the client: a script that keeps the base URL
    it first resolved and answers from what it kept. *)
Definition remembering_base_url {NM : NumberModel} : InWorld.Script string :=
  InWorld.SLoad "base" (fun kept =>
    match kept with
    | Some (VString s) => InWorld.SReturn s
    | _ =>
        InWorld.Script_bind
          (fun b => InWorld.SStore "base" (VString b) (InWorld.SReturn b))
          InWorld.getBackendBaseUrl
    end).

(** ** Reading a call *)

Section Reading.

Context {NM : NumberModel}.

(** The network that settles every [fetch] the same way. *)
Definition settling (answer : Settled Response.t) : Transport :=
  fun _ _ => answer.

(** The network that answers every request with [resp]. *)
Definition answering (resp : Response.t) : Transport :=
  settling (Fulfilled resp).

(** The value the client binds to [contentType]. *)
Definition contentType (resp : Response.t) : string :=
  Headers.or_empty (Headers.get (Response.headers resp) "content-type").

(** The content-type rule: the body promise the client awaits. *)
Definition decoded (resp : Response.t) : Settled JSValue :=
  if JSString.includes "application/json" (contentType resp)
  then Response.json resp
  else Response.text resp.

(** What the client does once the body promise [d] is chosen. *)
Definition settle (resp : Response.t) (d : Settled JSValue) : Settled JSValue :=
  if Response.ok resp then d
  else match d with
       | Fulfilled detail =>
           Rejected (Error_new (if String.eqb (typeof detail) "string"
                                then detail else JSON.stringify detail))
       | Rejected e => Rejected e
       end.

Definition is_rejected {A : Type} (p : Settled A) : Prop :=
  match p with
  | Rejected _ => True
  | Fulfilled _ => False
  end.

(** The specification's wording of the content-type test, a match that
    ignores case. *)
Definition includes_ignoring_case (t s : string) : bool :=
  JSString.includes (Headers.lowercase t) (Headers.lowercase s).

(** The specification's wording of the success range. *)
Definition status_200_to_399 (resp : Response.t) : Prop :=
  200 <= Response.status resp <= 399.

End Reading.

(** ** Inputs of the worked examples *)

Definition response (status : Z) (headers : list (string * string))
    (body : string) : Response.t :=
  {| Response.status := status;
     Response.headers := headers;
     Response.body := body |}.

(** A text between quotation marks. *)
Definition quoted (s : string) : string := JSON.quote +:+ s +:+ JSON.quote.

(** The JSON texts of the specification's examples: an object with the
    member [a] equal to 1, one with [code] equal to the string [E1], and
    one with [detail] equal to the string [bad input]. *)
Definition json_a_1 : string := "{" +:+ quoted "a" +:+ ":1}".

Definition json_code_E1 : string :=
  "{" +:+ quoted "code" +:+ ":" +:+ quoted "E1" +:+ "}".

Definition json_detail_bad_input : string :=
  "{" +:+ quoted "detail" +:+ ":" +:+ quoted "bad input" +:+ "}".

(** The JSON text of an object with the member [q] equal to the string
    [hi] and the member [tags] equal to the array of [true] and [null]. *)
Definition json_q_tags : string :=
  "{" +:+ quoted "q" +:+ ":" +:+ quoted "hi" +:+ ","
      +:+ quoted "tags" +:+ ":[true,null]}".

Definition json_header : list (string * string) :=
  [("content-type", "application/json")].

Definition text_header : list (string * string) :=
  [("content-type", "text/plain")].

(** ** Kinds of configured values *)

(** Every byte of the value is one of TAB, LF, VT, FF, CR and SPACE. *)
Fixpoint ascii_blank (s : string) : bool :=
  match s with
  | EmptyString => true
  | String a s' => JSString.ws1 a && ascii_blank s'
  end.

(** A printing ASCII character other than the space. *)
Definition visible (a : ascii) : bool :=
  ((33 <=? JSString.code a) && (JSString.code a <=? 126))%N.

Fixpoint has_visible (s : string) : bool :=
  match s with
  | EmptyString => false
  | String a s' => visible a || has_visible s'
  end.

(** ** Bodies that survive the wire *)

(** The scanner and its end-of-text check in one pass; [JSON.tokenize]
    is this function from the initial state. *)
Fixpoint lex_all (st : JSON.LexState) (s : string) : option (list JSON.Token) :=
  match s with
  | EmptyString => JSON.lex_finish st
  | String a s' =>
      match JSON.lex_step st a with
      | Some st' => lex_all st' s'
      | None => None
      end
  end.

(** The state after the first character of a number literal. *)
Definition num_start (a : ascii) : option JSON.NumState :=
  if (JSString.code a =? 45)%N then Some JSON.NMinus
  else if (JSString.code a =? 48)%N then Some JSON.NZero
  else if JSON.is_digit a then Some JSON.NInt
  else None.

Fixpoint num_run (st : JSON.NumState) (s : string) : option JSON.NumState :=
  match s with
  | EmptyString => Some st
  | String a s' =>
      match JSON.num_step st a with
      | Some st' => num_run st' s'
      | None => None
      end
  end.

(** The text is a number literal of JSON. *)
Definition is_number_literal (s : string) : bool :=
  match s with
  | EmptyString => false
  | String a s' =>
      match num_start a with
      | Some st =>
          match num_run st s' with
          | Some st' => JSON.num_accepting st'
          | None => false
          end
      | None => false
      end
  end.

(** No surrogate stands alone in the text: the byte ED is never followed
    by a byte from A0 to BF. *)
Fixpoint no_surrogate (s : string) : bool :=
  match s with
  | EmptyString => true
  | String a s1 =>
      negb ((JSString.code a =? 237)%N
            && match s1 with
               | String b _ => (160 <=? JSString.code b)%N && (JSString.code b <=? 191)%N
               | EmptyString => false
               end)
      && no_surrogate s1
  end.

(** What may follow a value in a serialisation: the end of the text, a
    comma, or a closing bracket or brace. *)
Inductive delimited : string -> Prop :=
| delimited_end : delimited ""
| delimited_comma r : delimited (String "," r)
| delimited_bracket r : delimited (String "]" r)
| delimited_brace r : delimited (String "}" r).

Section Wire.

Context {NM : NumberModel}.

(** The properties of an object built by defining [ps] one after the
    other on top of [done], as the parser does. *)
Fixpoint assemble (done ps : list (string * JSValue)) : list (string * JSValue) :=
  match ps with
  | [] => done
  | (k, v) :: ps' => assemble (JSON.define_property k v done) ps'
  end.

(** A value that [JSON.parse] gives back from its serialisation: no
    [undefined] in it; numbers finite, written by [NumberToString] as a
    literal that reads back as the same number; no lone surrogate in
    strings and keys; the properties of an object in the order in which
    defining them one by one leaves them, each key once. *)
Fixpoint echoable (v : JSValue) : Prop :=
  match v with
  | VUndefined => False
  | VNull => True
  | VBoolean _ => True
  | VNumber n =>
      NumberIsFinite n = true
      /\ is_number_literal (NumberToString n) = true
      /\ StringToNumber (NumberToString n) = n
  | VString s => no_surrogate s = true
  | VArray l =>
      (fix all (l : list JSValue) : Prop :=
         match l with
         | [] => True
         | x :: l' => echoable x /\ all l'
         end) l
  | VObject ps =>
      assemble [] ps = ps
      /\ (fix all (ps : list (string * JSValue)) : Prop :=
            match ps with
            | [] => True
            | (k, x) :: ps' => (no_surrogate k = true /\ echoable x) /\ all ps'
            end) ps
  end.

(** The text [JSON.stringify] writes for a value inside an array. *)
Definition ser (v : JSValue) : string :=
  match JSON.serialize v with
  | Some t => t
  | None => "null"
  end.

(** Token lists joined by a separator. *)
Fixpoint sep_concat (sep : JSON.Token) (ls : list (list JSON.Token))
    : list JSON.Token :=
  match ls with
  | [] => []
  | [x] => x
  | x :: ls' => x ++ sep :: sep_concat sep ls'
  end.

(** The tokens of the serialisation of a value. *)
Fixpoint tokens_of (v : JSValue) : list JSON.Token :=
  match v with
  | VUndefined => []
  | VNull => [JSON.TNull]
  | VBoolean true => [JSON.TTrue]
  | VBoolean false => [JSON.TFalse]
  | VNumber n => [JSON.TNumber (NumberToString n)]
  | VString s => [JSON.TString s]
  | VArray l =>
      JSON.TLBracket :: sep_concat JSON.TComma (List.map tokens_of l)
        ++ [JSON.TRBracket]
  | VObject ps =>
      JSON.TLBrace
        :: sep_concat JSON.TComma
             (List.map (fun p => JSON.TString (fst p) :: JSON.TColon
                                   :: tokens_of (snd p)) ps)
        ++ [JSON.TRBrace]
  end.

(** The text of one member of an object. *)
Definition member_text (p : string * JSValue) : string :=
  JSON.QuoteJSONString (fst p) +:+ ":" +:+ ser (snd p).

(** The tokens of one member of an object. *)
Definition member_tokens (p : string * JSValue) : list JSON.Token :=
  JSON.TString (fst p) :: JSON.TColon :: tokens_of (snd p).

(** The parser reads the tokens of a value and is done with that value. *)
Definition reads_back (v : JSValue) : Prop :=
  forall stack ts,
    JSON.parse_run (JSON.PValue, stack) (tokens_of v ++ ts)%list
    = JSON.parse_run (JSON.PDone v, stack) ts.

(** What the scanner holds for the bytes of a string: a code unit for a
    byte that is written as an escape, the byte itself otherwise. *)
Definition item_of (a : ascii) : JSON.StrItem :=
  let c := JSString.code a in
  if ((c <? 32) || (c =? 34) || (c =? 92))%N then JSON.Unit c else JSON.Raw a.

(** A server that answers a request with the payload it received, as
    JSON. *)
Definition echo_server : Transport :=
  fun _ init =>
    match Request.body init with
    | VString payload => Fulfilled (response 200 json_header payload)
    | _ => Fulfilled (response 400 text_header "no payload")
    end.

End Wire.

(** * Properties *)

(** ** Strings *)

Lemma prefix_true_iff (t s : string) :
  String.prefix t s = true <-> exists post, s = t +:+ post.
Proof.
  revert s. induction t as [|a t IH]; intros s.
  - split; [intros _; exists s; reflexivity | intros _; destruct s; reflexivity].
  - destruct s as [|b s]; simpl.
    + split; [discriminate | intros [post H]; discriminate].
    + destruct (ascii_dec a b) as [->|Hne].
      * rewrite IH. split; intros [post H]; exists post.
        -- simpl. now rewrite H.
        -- simpl in H. now inversion H.
      * split; [discriminate|].
        intros [post H]. simpl in H. inversion H. congruence.
Qed.

(** [includes] is the substring test. *)
Lemma includes_true_iff (t s : string) :
  JSString.includes t s = true <->
  exists pre post, s = pre +:+ t +:+ post.
Proof.
  induction s as [|a s IH].
  - cbn [JSString.includes]. rewrite orb_false_r, prefix_true_iff. split.
    + intros [post H]. exists "", post. exact H.
    + intros [pre [post H]]. destruct pre; [exists post; exact H | discriminate].
  - cbn [JSString.includes]. rewrite orb_true_iff, IH, prefix_true_iff. split.
    + intros [[post H] | [pre [post H]]].
      * exists "", post. exact H.
      * exists (String a pre), post. simpl. now rewrite H.
    + intros [pre [post H]]. destruct pre as [|b pre].
      * left. exists post. exact H.
      * right. exists pre, post. simpl in H. now inversion H.
Qed.

Lemma trim_empty : JSString.trim "" = "".
Proof. reflexivity. Qed.

Lemma length_positive_iff (s : string) :
  JSString.length_positive s = true <-> s <> "".
Proof.
  destruct s; simpl; split; try congruence; try discriminate; reflexivity.
Qed.

Lemma ToBoolean_string_iff (s : string) :
  JSString.ToBoolean s = true <-> s <> "".
Proof.
  destruct s; simpl; split; try congruence; try discriminate; reflexivity.
Qed.

(** ** The base URL *)

(** The guard of [getBackendBaseUrl] is the test that the trimmed value
    is not empty: an empty value trims to the empty string. *)
Lemma base_url_guard (s : string) :
  JSString.ToBoolean s && JSString.length_positive (JSString.trim s) = true
  <-> JSString.trim s <> "".
Proof.
  rewrite andb_true_iff, ToBoolean_string_iff, length_positive_iff.
  split; [tauto|]. intros H. split; [|exact H].
  intros ->. apply H. reflexivity.
Qed.

Lemma getBackendBaseUrl_nonempty (env : ProcessEnv) :
  getBackendBaseUrl env <> "".
Proof.
  unfold getBackendBaseUrl.
  destruct (env !! REACT_APP_BACKEND_URL) as [s|]; [|discriminate].
  destruct (JSString.ToBoolean s) eqn:Hs; simpl; [|discriminate].
  destruct (JSString.length_positive _); [|discriminate].
  now apply ToBoolean_string_iff.
Qed.

(** C1.  Whatever value the environment variable has, [getBackendBaseUrl]
    returns the configured value itself, untrimmed, when the variable is
    set and its trimmed form is not empty, and returns exactly
    ["http://localhost:3001"] when the variable is absent or its value
    trims to the empty string. *)
Theorem getBackendBaseUrl_contract (env : ProcessEnv) :
  (forall s, env !! REACT_APP_BACKEND_URL = Some s ->
             JSString.trim s <> "" -> getBackendBaseUrl env = s)
  /\ (env !! REACT_APP_BACKEND_URL = None
      \/ (exists s, env !! REACT_APP_BACKEND_URL = Some s
                    /\ JSString.trim s = "") ->
      getBackendBaseUrl env = "http://localhost:3001").
Proof.
  unfold getBackendBaseUrl. split.
  - intros s -> Hs. apply base_url_guard in Hs. now rewrite Hs.
  - intros [-> | [s [-> Hs]]]; [reflexivity|].
    destruct (JSString.ToBoolean s && _) eqn:Hg; [|reflexivity].
    apply base_url_guard in Hg. contradiction.
Qed.

(** ** JSON values *)

Section JSONFacts.

Context {NM : NumberModel}.

Lemma parse_step_defined st t v stack :
  JSON.parse_step st t = Some (JSON.PDone v, stack) -> v <> VUndefined.
Proof.
  destruct st as [mode stk].
  destruct mode; destruct t; simpl;
    try (destruct stk as [|[] stk]; simpl);
    intros H; inversion H; discriminate.
Qed.

Lemma parse_run_defined ts st v stack :
  JSON.parse_run st ts = Some (JSON.PDone v, stack) ->
  fst st <> JSON.PDone VUndefined -> v <> VUndefined.
Proof.
  revert st. induction ts as [|t ts IH]; intros st; simpl.
  - intros H Hst. inversion H; subst. simpl in Hst. congruence.
  - destruct (JSON.parse_step st t) as [st'|] eqn:Hstep; [|discriminate].
    intros H _. apply (IH st' H).
    destruct st' as [mode' stk']. simpl. intros ->.
    now apply parse_step_defined in Hstep.
Qed.

(** [JSON.parse] never produces [undefined]. *)
Lemma parse_defined text v : JSON.parse text = Some v -> v <> VUndefined.
Proof.
  unfold JSON.parse.
  destruct (JSON.tokenize text) as [ts|]; [|discriminate].
  destruct (JSON.parse_run _ ts) as [[mode stack]|] eqn:Hrun; [|discriminate].
  destruct mode; try discriminate.
  destruct stack; [|discriminate].
  intros H. inversion H; subst.
  eapply parse_run_defined; [exact Hrun | simpl; discriminate].
Qed.

(** [JSON.stringify] gives a string for everything but [undefined]. *)
Lemma stringify_defined v :
  v <> VUndefined -> exists t, JSON.stringify v = VString t.
Proof.
  unfold JSON.stringify.
  destruct v as [| |[]| | | |]; simpl; intros H; try congruence; eauto.
Qed.

Lemma decoded_defined resp detail :
  decoded resp = Fulfilled detail -> detail <> VUndefined.
Proof.
  unfold decoded, Response.json, Response.text.
  destruct (JSString.includes _ _).
  - destruct (JSON.parse _) eqn:Hp; [|discriminate].
    intros H. inversion H; subst. eapply parse_defined; eauto.
  - intros H. inversion H. discriminate.
Qed.

(** The content-type rule rejects only with the parser's error. *)
Lemma decoded_rejected resp e :
  decoded resp = Rejected e ->
  JSString.includes "application/json" (contentType resp) = true
  /\ JSON.parse (Response.body resp) = None
  /\ e = SyntaxError (Response.body resp).
Proof.
  unfold decoded, Response.json, Response.text.
  destruct (JSString.includes _ _); [|discriminate].
  destruct (JSON.parse _); [discriminate|].
  intros H. inversion H. auto.
Qed.

End JSONFacts.

(** ** The shape of a call *)

Section Shape.

Context {NM : NumberModel}.

Lemma run_await {A : Type} (net : Transport) (p : Settled A) :
  run net (await p) = p.
Proof. destruct p; reflexivity. Qed.

(** Both functions handle a response in the same way: the body promise
    the content-type rule selects, settled by [settle]. *)
Lemma run_handler (net : Transport) (resp : Response.t) :
  run net
    (if negb (Response.ok resp) then
       detail ← await (if JSString.includes "application/json" (contentType resp)
                       then Response.json resp else Response.text resp);
       throw (Error_new (if String.eqb (typeof detail) "string"
                         then detail else JSON.stringify detail))
     else
       await (if JSString.includes "application/json" (contentType resp)
              then Response.json resp else Response.text resp))
  = settle resp (decoded resp).
Proof.
  unfold settle. fold (decoded resp).
  destruct (Response.ok resp); cbn [negb].
  - apply run_await.
  - destruct (decoded resp); reflexivity.
Qed.

Lemma requests_one {A : Type} (net : Transport) url init
    (k : Response.t -> Async A) :
  (forall resp, requests net (k resp) = []) ->
  requests net (Fetch url init k) = [(url, init)].
Proof.
  intros Hk. cbn [requests]. destruct (net url init); [now rewrite Hk | reflexivity].
Qed.

Lemma requests_await {A : Type} (net : Transport) (p : Settled A) :
  requests net (await p) = [].
Proof. destruct p; reflexivity. Qed.

Lemma requests_handler (net : Transport) (resp : Response.t) :
  requests net
    (if negb (Response.ok resp) then
       detail ← await (if JSString.includes "application/json" (contentType resp)
                       then Response.json resp else Response.text resp);
       throw (Error_new (if String.eqb (typeof detail) "string"
                         then detail else JSON.stringify detail))
     else
       await (if JSString.includes "application/json" (contentType resp)
              then Response.json resp else Response.text resp))
  = [].
Proof.
  fold (decoded resp). destruct (Response.ok resp); cbn [negb].
  - apply requests_await.
  - destruct (decoded resp); reflexivity.
Qed.

(** [apiGet] issues one request and handles the response. *)
Lemma apiGet_shape env path token :
  exists init k,
    apiGet env path token = Fetch (getBackendBaseUrl env +:+ path) init k
    /\ Request.method init = "GET"
    /\ Request.headers init =
         (if ToBoolean token
          then {[ "Authorization" := "Bearer " +:+ ToString token ]}
          else ∅)
    /\ Request.body init = VUndefined
    /\ forall net resp,
         run net (k resp) = settle resp (decoded resp)
         /\ requests net (k resp) = [].
Proof.
  unfold apiGet. eexists _, _. split; [reflexivity|].
  cbn [Request.method Request.headers Request.body].
  split; [reflexivity|]. split; [|split; [reflexivity|]].
  - destruct (ToBoolean token); [apply insert_empty | reflexivity].
  - intros net resp. cbn [Async_bind].
    split; [apply run_handler | apply requests_handler].
Qed.

(** [apiPost] issues one request and handles the response. *)
Lemma apiPost_shape env path body token :
  exists init k,
    apiPost env path body token = Fetch (getBackendBaseUrl env +:+ path) init k
    /\ Request.method init = "POST"
    /\ Request.headers init =
         (if ToBoolean token
          then <[ "Authorization" := "Bearer " +:+ ToString token ]>
                 {[ "Content-Type" := "application/json" ]}
          else {[ "Content-Type" := "application/json" ]})
    /\ Request.body init = JSON.stringify (nullish_coalesce body (VObject []))
    /\ forall net resp,
         run net (k resp) = settle resp (decoded resp)
         /\ requests net (k resp) = [].
Proof.
  unfold apiPost. eexists _, _. split; [reflexivity|].
  cbn [Request.method Request.headers Request.body].
  do 3 (split; [reflexivity|]).
  intros net resp. cbn [Async_bind].
  split; [apply run_handler | apply requests_handler].
Qed.

Lemma run_apiGet_settling answer env path token :
  run (settling answer) (apiGet env path token)
  = match answer with
    | Fulfilled resp => settle resp (decoded resp)
    | Rejected e => Rejected e
    end.
Proof.
  destruct (apiGet_shape env path token) as (init & k & -> & _ & _ & _ & Hk).
  cbn [run]. unfold settling at 1. destruct answer; [apply Hk | reflexivity].
Qed.

Lemma run_apiPost_settling answer env path body token :
  run (settling answer) (apiPost env path body token)
  = match answer with
    | Fulfilled resp => settle resp (decoded resp)
    | Rejected e => Rejected e
    end.
Proof.
  destruct (apiPost_shape env path body token) as (init & k & -> & _ & _ & _ & Hk).
  cbn [run]. unfold settling at 1. destruct answer; [apply Hk | reflexivity].
Qed.

Lemma run_apiGet env path token resp :
  run (answering resp) (apiGet env path token) = settle resp (decoded resp).
Proof. apply (run_apiGet_settling (Fulfilled resp)). Qed.

Lemma run_apiPost env path body token resp :
  run (answering resp) (apiPost env path body token) = settle resp (decoded resp).
Proof. apply (run_apiPost_settling (Fulfilled resp)). Qed.

End Shape.

(** ** The claims of the specification *)

Section Claims.

Context {NM : NumberModel}.

Lemma requests_apiGet net env path token :
  exists init,
    requests net (apiGet env path token)
    = [(getBackendBaseUrl env +:+ path, init)]
    /\ Request.method init = "GET"
    /\ Request.headers init =
         (if ToBoolean token
          then {[ "Authorization" := "Bearer " +:+ ToString token ]}
          else ∅)
    /\ Request.body init = VUndefined.
Proof.
  destruct (apiGet_shape env path token) as (init & k & -> & Hm & Hh & Hb & Hk).
  exists init. split; [|auto].
  apply requests_one. intros resp. apply Hk.
Qed.

Lemma requests_apiPost net env path body token :
  exists init,
    requests net (apiPost env path body token)
    = [(getBackendBaseUrl env +:+ path, init)]
    /\ Request.method init = "POST"
    /\ Request.headers init =
         (if ToBoolean token
          then <[ "Authorization" := "Bearer " +:+ ToString token ]>
                 {[ "Content-Type" := "application/json" ]}
          else {[ "Content-Type" := "application/json" ]})
    /\ Request.body init = JSON.stringify (nullish_coalesce body (VObject [])).
Proof.
  destruct (apiPost_shape env path body token) as (init & k & -> & Hm & Hh & Hb & Hk).
  exists init. split; [|auto].
  apply requests_one. intros resp. apply Hk.
Qed.

(** The message of the error thrown for a decoded detail. *)
Lemma settle_failure resp detail :
  Response.ok resp = false ->
  detail <> VUndefined ->
  exists m,
    settle resp (Fulfilled detail) = Rejected (Error m)
    /\ (forall s, detail = VString s -> m = s)
    /\ ((forall s, detail <> VString s) -> JSON.stringify detail = VString m).
Proof.
  intros Hok Hdef. unfold settle. rewrite Hok.
  destruct detail as [| |b|n|s|l|ps]; try congruence;
    cbn [typeof String.eqb Ascii.eqb Bool.eqb];
    try (destruct (stringify_defined _ Hdef) as [t Ht]; rewrite Ht;
         exists t; cbn [Error_new ToString];
         split; [reflexivity | split; [intros s Hs; discriminate | reflexivity]]).
  exists s. cbn [Error_new ToString].
  split; [reflexivity | split].
  - intros s' Hs. now inversion Hs.
  - intros Hs. now destruct (Hs s).
Qed.

(** C2, amended.  For every failing response whose body decodes under
    the content-type rule, [apiGet] and [apiPost] reject with an [Error]
    whose message is the decoded detail itself when that detail is a
    string, and otherwise the JSON serialisation of the decoded detail.
    When the rule selects JSON and the body is not valid JSON, no detail
    is decoded and both reject with the parser's [SyntaxError]. *)
Theorem failure_message_from_detail env path body token resp :
  Response.ok resp = false ->
  (forall detail, decoded resp = Fulfilled detail ->
     exists m,
       run (answering resp) (apiGet env path token) = Rejected (Error m)
       /\ run (answering resp) (apiPost env path body token) = Rejected (Error m)
       /\ (forall s, detail = VString s -> m = s)
       /\ ((forall s, detail <> VString s) -> JSON.stringify detail = VString m))
  /\ (forall e, decoded resp = Rejected e ->
        e = SyntaxError (Response.body resp)
        /\ run (answering resp) (apiGet env path token) = Rejected e
        /\ run (answering resp) (apiPost env path body token) = Rejected e).
Proof.
  intros Hok. rewrite run_apiGet, run_apiPost. split.
  - intros detail Hd. rewrite Hd.
    destruct (settle_failure resp detail Hok (decoded_defined _ _ Hd))
      as (m & Hm & Hs & Hj).
    exists m. auto.
  - intros e He. rewrite He.
    destruct (decoded_rejected _ _ He) as (_ & _ & ->).
    unfold settle. rewrite Hok. auto.
Qed.

(** C3, amended.  For every response, [apiGet] and [apiPost] choose
    between JSON decoding and raw-text decoding by whether the text
    ["application/json"] occurs, letter case included, in the value of
    the response's content-type header; when the header is absent the
    value is taken to be the empty string, so the body is decoded as
    text. *)
Theorem content_type_rule env path body token resp :
  (JSString.includes "application/json" (contentType resp) = true <->
   exists pre post, contentType resp = pre +:+ "application/json" +:+ post)
  /\ run (answering resp) (apiGet env path token)
     = settle resp (if JSString.includes "application/json" (contentType resp)
                    then Response.json resp else Response.text resp)
  /\ run (answering resp) (apiPost env path body token)
     = settle resp (if JSString.includes "application/json" (contentType resp)
                    then Response.json resp else Response.text resp)
  /\ (Headers.get (Response.headers resp) "content-type" = None ->
      contentType resp = ""
      /\ run (answering resp) (apiGet env path token)
         = settle resp (Response.text resp)
      /\ run (answering resp) (apiPost env path body token)
         = settle resp (Response.text resp)).
Proof.
  split; [apply includes_true_iff|].
  rewrite run_apiGet, run_apiPost. unfold decoded.
  do 2 (split; [reflexivity|]).
  intros Habs. unfold contentType. rewrite Habs. cbn [Headers.or_empty].
  auto.
Qed.

Lemma ok_iff resp :
  Response.ok resp = true <-> 200 <= Response.status resp <= 299.
Proof. unfold Response.ok. rewrite andb_true_iff, !Z.leb_le. tauto. Qed.

(** C4, amended.  For every response, [apiGet] and [apiPost] reject
    whenever the response is not flagged ok, where ok means a status
    code in the range 200 to 299, and throw their own [Error] for no
    other response: the status alone decides, the decoded body is not
    consulted.  For a response that is ok they settle as the decoding of
    the body does, which rejects, with the parser's [SyntaxError],
    exactly when the content type selects JSON and the body is not valid
    JSON, and resolves otherwise. *)
Theorem failure_signalling env path body token resp :
  (Response.ok resp = true <-> 200 <= Response.status resp <= 299)
  /\ (Response.ok resp = false ->
      is_rejected (run (answering resp) (apiGet env path token))
      /\ is_rejected (run (answering resp) (apiPost env path body token)))
  /\ (forall resp', Response.status resp' = Response.status resp ->
                    Response.ok resp' = Response.ok resp)
  /\ (Response.ok resp = true ->
      run (answering resp) (apiGet env path token) = decoded resp
      /\ run (answering resp) (apiPost env path body token) = decoded resp
      /\ (JSString.includes "application/json" (contentType resp) = true
          /\ JSON.parse (Response.body resp) = None ->
          decoded resp = Rejected (SyntaxError (Response.body resp)))
      /\ (~ (JSString.includes "application/json" (contentType resp) = true
             /\ JSON.parse (Response.body resp) = None) ->
          exists v, decoded resp = Fulfilled v))
  /\ (forall m,
        run (answering resp) (apiGet env path token) = Rejected (Error m)
        \/ run (answering resp) (apiPost env path body token) = Rejected (Error m) ->
        Response.ok resp = false).
Proof.
  split; [apply ok_iff|].
  rewrite run_apiGet, run_apiPost. unfold settle.
  split; [| split].
  2: { intros resp' Hst. unfold Response.ok. now rewrite Hst. }
  - intros ->. destruct (decoded resp); simpl; auto.
  - destruct (Response.ok resp) eqn:Hok.
    + split.
      * intros _. do 2 (split; [reflexivity|]).
        unfold decoded, Response.json, Response.text.
        destruct (JSString.includes _ _).
        -- destruct (JSON.parse _) as [v|].
           ++ split; [intros [_ H]; discriminate | intros _; now exists v].
           ++ split; [reflexivity | intros H; now destruct H].
        -- split; [intros [H _]; discriminate | intros _; eauto].
      * intros m [H|H]; apply decoded_rejected in H;
          destruct H as (_ & _ & H); discriminate.
    + split; [discriminate | reflexivity].
Qed.

(** C5, amended.  For every successful response, [apiGet] and [apiPost]
    resolve to the JSON-parsed body when the content-type rule selects
    JSON and the body is valid JSON, and resolve to the raw body text as
    a string when the rule does not select JSON.  When the rule selects
    JSON and the body is not valid JSON they reject with the parser's
    [SyntaxError]. *)
Theorem success_resolution env path body token resp :
  Response.ok resp = true ->
  (JSString.includes "application/json" (contentType resp) = true ->
     (forall v, JSON.parse (Response.body resp) = Some v ->
        run (answering resp) (apiGet env path token) = Fulfilled v
        /\ run (answering resp) (apiPost env path body token) = Fulfilled v)
     /\ (JSON.parse (Response.body resp) = None ->
        run (answering resp) (apiGet env path token)
        = Rejected (SyntaxError (Response.body resp))
        /\ run (answering resp) (apiPost env path body token)
           = Rejected (SyntaxError (Response.body resp))))
  /\ (JSString.includes "application/json" (contentType resp) = false ->
      run (answering resp) (apiGet env path token)
      = Fulfilled (VString (Response.body resp))
      /\ run (answering resp) (apiPost env path body token)
         = Fulfilled (VString (Response.body resp))).
Proof.
  intros Hok. rewrite run_apiGet, run_apiPost.
  unfold settle, decoded, Response.json, Response.text. rewrite Hok.
  split; intros ->; [split|]; [intros v -> | intros -> |]; auto.
Qed.

Lemma stringify_empty_object : JSON.stringify (VObject []) = VString "{}".
Proof. reflexivity. Qed.

(** C6.  For every call [apiPost(path, body, token)] the request carries
    the header [Content-Type: application/json] and its payload is the
    JSON serialisation of [body], with the empty object in the place of
    a [body] that is absent or [null] and of no other: a [body] that is
    neither is serialised itself, so that an object with a string and
    an array in it is sent as their JSON text.  In particular
    [apiPost("/x", undefined, "tok123")] sends
    [Authorization: Bearer tok123] and the payload ["{}"]. *)
Theorem apiPost_request net env path body token :
  (exists init,
     requests net (apiPost env path body token)
     = [(getBackendBaseUrl env +:+ path, init)]
     /\ Request.method init = "POST"
     /\ Request.headers init !! "Content-Type" = Some "application/json"
     /\ Request.body init = JSON.stringify (nullish_coalesce body (VObject []))
     /\ (exists payload, Request.body init = VString payload)
     /\ (body = VUndefined \/ body = VNull -> Request.body init = VString "{}")
     /\ (body <> VUndefined -> body <> VNull ->
         Request.body init = JSON.stringify body))
  /\ (exists init,
        requests net (apiPost env "/x" VUndefined (VString "tok123"))
        = [(getBackendBaseUrl env +:+ "/x", init)]
        /\ Request.headers init !! "Content-Type" = Some "application/json"
        /\ Request.headers init !! "Authorization" = Some "Bearer tok123"
        /\ Request.body init = VString "{}")
  /\ (exists init,
        requests net
          (apiPost env path
             (VObject [("q", VString "hi");
                       ("tags", VArray [VBoolean true; VNull])]) token)
        = [(getBackendBaseUrl env +:+ path, init)]
        /\ Request.headers init !! "Content-Type" = Some "application/json"
        /\ Request.body init = VString json_q_tags)
  /\ (forall s, exists init,
        requests net (apiPost env path (VString s) token)
        = [(getBackendBaseUrl env +:+ path, init)]
        /\ Request.body init = VString (JSON.QuoteJSONString s)).
Proof.
  assert (Hct : forall init : Request.t,
            Request.headers init =
              (if ToBoolean token
               then <[ "Authorization" := "Bearer " +:+ ToString token ]>
                      {[ "Content-Type" := "application/json" ]}
               else {[ "Content-Type" := "application/json" ]}) ->
            Request.headers init !! "Content-Type" = Some "application/json").
  { intros init ->. destruct (ToBoolean token).
    - rewrite lookup_insert_ne by discriminate. apply lookup_singleton_eq.
    - apply lookup_singleton_eq. }
  split; [|split; [|split]].
  - destruct (requests_apiPost net env path body token)
      as (init & Hr & Hm & Hh & Hb).
    exists init. split; [exact Hr|]. split; [exact Hm|].
    split; [exact (Hct init Hh)|]. split; [exact Hb|]. split; [|split].
    + rewrite Hb. apply stringify_defined.
      destruct body; simpl; discriminate.
    + intros [-> | ->]; rewrite Hb; reflexivity.
    + intros Hu Hn. rewrite Hb.
      destruct body; try reflexivity; congruence.
  - destruct (requests_apiPost net env "/x" VUndefined (VString "tok123"))
      as (init & Hr & Hm & Hh & Hb).
    exists init. split; [exact Hr|]. rewrite Hh, Hb. cbn [ToBoolean JSString.ToBoolean ToString].
    split; [|split; [|reflexivity]].
    + rewrite lookup_insert_ne by discriminate. apply lookup_singleton_eq.
    + apply lookup_insert_eq.
  - destruct (requests_apiPost net env path
                (VObject [("q", VString "hi");
                          ("tags", VArray [VBoolean true; VNull])]) token)
      as (init & Hr & Hm & Hh & Hb).
    exists init. split; [exact Hr|]. split; [exact (Hct init Hh)|].
    rewrite Hb. reflexivity.
  - intros s.
    destruct (requests_apiPost net env path (VString s) token)
      as (init & Hr & Hm & Hh & Hb).
    exists init. split; [exact Hr|]. rewrite Hb. reflexivity.
Qed.

(** C7.  For every call to [apiGet] or [apiPost] the request URL is the
    resolved base URL followed by the [path] argument as it is, and the
    [Authorization] header is present, with the value ["Bearer "]
    followed by the token, exactly when the [token] argument is
    truthy. *)
Theorem request_url_and_authorization net env path body token :
  exists get_init post_init,
    requests net (apiGet env path token)
    = [(getBackendBaseUrl env +:+ path, get_init)]
    /\ requests net (apiPost env path body token)
       = [(getBackendBaseUrl env +:+ path, post_init)]
    /\ Request.headers get_init !! "Authorization"
       = (if ToBoolean token then Some ("Bearer " +:+ ToString token) else None)
    /\ Request.headers post_init !! "Authorization"
       = (if ToBoolean token then Some ("Bearer " +:+ ToString token) else None).
Proof.
  destruct (requests_apiGet net env path token) as (gi & Hg & _ & Hgh & _).
  destruct (requests_apiPost net env path body token) as (pi & Hp & _ & Hph & _).
  exists gi, pi. split; [exact Hg|]. split; [exact Hp|].
  rewrite Hgh, Hph. destruct (ToBoolean token).
  - split; [apply lookup_singleton_eq | apply lookup_insert_eq].
  - split; [apply lookup_empty|].
    apply lookup_singleton_ne. discriminate.
Qed.

(** C8.  For every response, of any status, content type and body, and
    also when no response arrives, [apiPost] settles as [apiGet] does:
    the same resolved value, or a rejection with the same error. *)
Theorem apiPost_settles_as_apiGet env path body token env' path' token' answer :
  run (settling answer) (apiPost env path body token)
  = run (settling answer) (apiGet env' path' token').
Proof.
  destruct (apiPost_shape env path body token)
    as (post_init & post_k & -> & _ & _ & _ & Hpost).
  destruct (apiGet_shape env' path' token')
    as (get_init & get_k & -> & _ & _ & _ & Hget).
  cbn [run]. unfold settling.
  destruct answer as [resp | e]; [|reflexivity].
  destruct (Hpost (fun _ _ => Fulfilled resp) resp) as [-> _].
  destruct (Hget (fun _ _ => Fulfilled resp) resp) as [-> _].
  reflexivity.
Qed.

(** C9.  For every call to [apiGet] the request's headers hold at most
    one entry, the [Authorization] header when the token is truthy, and
    none otherwise; [apiGet] never sets a [Content-Type] request header,
    which [apiPost] always does. *)
Theorem apiGet_headers net env path body token :
  exists get_init post_init,
    requests net (apiGet env path token)
    = [(getBackendBaseUrl env +:+ path, get_init)]
    /\ requests net (apiPost env path body token)
       = [(getBackendBaseUrl env +:+ path, post_init)]
    /\ Request.headers get_init
       = (if ToBoolean token
          then {[ "Authorization" := "Bearer " +:+ ToString token ]}
          else ∅)
    /\ (size (Request.headers get_init) <= 1)%nat
    /\ (forall name, name <> "Authorization" ->
          Request.headers get_init !! name = None)
    /\ Request.headers get_init !! "Content-Type" = None
    /\ Request.headers post_init !! "Content-Type" = Some "application/json".
Proof.
  destruct (requests_apiGet net env path token) as (gi & Hg & _ & Hgh & _).
  destruct (requests_apiPost net env path body token) as (pi & Hp & _ & Hph & _).
  exists gi, pi. split; [exact Hg|]. split; [exact Hp|]. split; [exact Hgh|].
  rewrite Hgh, Hph. destruct (ToBoolean token).
  - split; [rewrite map_size_singleton; lia|].
    split; [intros name Hn; apply lookup_singleton_ne; congruence|].
    split; [apply lookup_singleton_ne; discriminate|].
    rewrite lookup_insert_ne by discriminate. apply lookup_singleton_eq.
  - split; [rewrite map_size_empty; lia|].
    split; [intros name _; apply lookup_empty|].
    split; [apply lookup_empty | apply lookup_singleton_eq].
Qed.

(** A call settles, and issues its requests, according to the answers
    the network gives to the requests it issues and to nothing else of
    the network. *)
Lemma run_depends_on_answers {A : Type} (net1 net2 : Transport) (p : Async A) :
  (forall url init, In (url, init) (requests net1 p) ->
                    net1 url init = net2 url init) ->
  run net1 p = run net2 p /\ requests net1 p = requests net2 p.
Proof.
  induction p as [a | e | url init k IH]; intros Hnet; [now split | now split |].
  cbn [run requests] in *.
  rewrite <- (Hnet url init) by (left; reflexivity).
  destruct (net1 url init) as [resp | e] eqn:Hans; [|now split].
  destruct (IH resp) as [Hrun Hreq].
  - intros url' init' Hin. apply Hnet. right. exact Hin.
  - split; [exact Hrun | now rewrite Hreq].
Qed.

Lemma getBackendBaseUrl_depends_on_variable (env1 env2 : ProcessEnv) :
  env1 !! REACT_APP_BACKEND_URL = env2 !! REACT_APP_BACKEND_URL ->
  getBackendBaseUrl env1 = getBackendBaseUrl env2.
Proof. unfold getBackendBaseUrl. now intros ->. Qed.

(** The typed programs settle, and issue their request, by the value of
    the variable and by the network's answer to the request issued,
    whatever else differs in the environment or in the network. *)
Lemma calls_depend_on_variable_and_answers
    (env1 env2 : ProcessEnv) (net1 net2 : Transport) path body token :
  env1 !! REACT_APP_BACKEND_URL = env2 !! REACT_APP_BACKEND_URL ->
  getBackendBaseUrl env1 = getBackendBaseUrl env2
  /\ ((forall url init,
         In (url, init) (requests net1 (apiGet env1 path token)) ->
         net1 url init = net2 url init) ->
      run net1 (apiGet env1 path token) = run net2 (apiGet env2 path token)
      /\ requests net1 (apiGet env1 path token)
         = requests net2 (apiGet env2 path token))
  /\ ((forall url init,
         In (url, init) (requests net1 (apiPost env1 path body token)) ->
         net1 url init = net2 url init) ->
      run net1 (apiPost env1 path body token)
      = run net2 (apiPost env2 path body token)
      /\ requests net1 (apiPost env1 path body token)
         = requests net2 (apiPost env2 path body token)).
Proof.
  intros Henv.
  pose proof (getBackendBaseUrl_depends_on_variable env1 env2 Henv) as Hbase.
  split; [exact Hbase|].
  assert (Hget : apiGet env2 path token = apiGet env1 path token)
    by (unfold apiGet; now rewrite Hbase).
  assert (Hpost : apiPost env2 path body token = apiPost env1 path body token)
    by (unfold apiPost; now rewrite Hbase).
  rewrite Hget, Hpost.
  split; intros Hnet; now apply run_depends_on_answers.
Qed.

End Claims.

(** ** Worked inputs *)

(** The inputs below are evaluated in the model of numbers that keeps
    the text of a literal. *)
#[local] Existing Instance LiteralNumbers.

Lemma getBackendBaseUrl_contract_witness :
  let env : ProcessEnv := {[ REACT_APP_BACKEND_URL := " http://example.com " ]} in
  let blank : ProcessEnv := {[ REACT_APP_BACKEND_URL := "   " ]} in
  (env !! REACT_APP_BACKEND_URL = Some " http://example.com "
   /\ JSString.trim " http://example.com " <> ""
   /\ getBackendBaseUrl env = " http://example.com ")
  /\ ((∅ : ProcessEnv) !! REACT_APP_BACKEND_URL = None
      /\ getBackendBaseUrl ∅ = "http://localhost:3001")
  /\ (blank !! REACT_APP_BACKEND_URL = Some "   "
      /\ JSString.trim "   " = ""
      /\ getBackendBaseUrl blank = "http://localhost:3001").
Proof.
  intros env blank.
  assert (He : env !! REACT_APP_BACKEND_URL = Some " http://example.com ")
    by reflexivity.
  assert (Ht : JSString.trim " http://example.com " <> "")
    by (vm_compute; discriminate).
  assert (Hb : blank !! REACT_APP_BACKEND_URL = Some "   ") by reflexivity.
  split; [|split].
  - split; [exact He|]. split; [exact Ht|].
    exact (proj1 (getBackendBaseUrl_contract env) _ He Ht).
  - split; [reflexivity|].
    exact (proj2 (getBackendBaseUrl_contract ∅) (or_introl eq_refl)).
  - split; [exact Hb|]. split; [reflexivity|].
    apply (proj2 (getBackendBaseUrl_contract blank)).
    right. exists "   ". split; [exact Hb | reflexivity].
Defined.

(** A status 502 whose body is announced as JSON and is not JSON: no
    detail is decoded, and the rejection is the parser's. *)
Lemma failing_response_without_detail :
  let resp := response 502 json_header "<html>" in
  Response.ok resp = false
  /\ run (answering resp) (apiGet ∅ "/x" VUndefined)
     = Rejected (SyntaxError "<html>")
  /\ run (answering resp) (apiPost ∅ "/x" (VObject []) VUndefined)
     = Rejected (SyntaxError "<html>")
  /\ ~ (exists detail m,
          decoded resp = Fulfilled detail
          /\ run (answering resp) (apiGet ∅ "/x" VUndefined) = Rejected (Error m)).
Proof.
  intros resp. do 3 (split; [reflexivity|]).
  intros (detail & m & Hd & _). vm_compute in Hd. discriminate.
Qed.

Lemma failure_message_from_detail_witness :
  let resp := response 500 json_header json_code_E1 in
  let plain := response 400 text_header "bad input" in
  (Response.ok resp = false
   /\ decoded resp = Fulfilled (VObject [("code", VString "E1")])
   /\ run (answering resp) (apiPost ∅ "/x" (VObject []) VUndefined)
      = Rejected (Error json_code_E1))
  /\ (Response.ok plain = false
      /\ decoded plain = Fulfilled (VString "bad input")
      /\ run (answering plain) (apiGet ∅ "/x" VUndefined)
         = Rejected (Error "bad input")).
Proof.
  intros resp plain. split.
  - assert (Hok : Response.ok resp = false) by reflexivity.
    assert (Hd : decoded resp = Fulfilled (VObject [("code", VString "E1")]))
      by reflexivity.
    split; [exact Hok|]. split; [exact Hd|].
    destruct (proj1 (failure_message_from_detail
                       ∅ "/x" (VObject []) VUndefined resp Hok) _ Hd)
      as (m & _ & Hpost & _ & Hj).
    rewrite Hpost. f_equal. f_equal.
    assert (Hm : JSON.stringify (VObject [("code", VString "E1")]) = VString m)
      by (apply Hj; intros s; discriminate).
    vm_compute in Hm. inversion Hm. reflexivity.
  - assert (Hok : Response.ok plain = false) by reflexivity.
    assert (Hd : decoded plain = Fulfilled (VString "bad input")) by reflexivity.
    split; [exact Hok|]. split; [exact Hd|].
    destruct (proj1 (failure_message_from_detail
                       ∅ "/x" (VObject []) VUndefined plain Hok) _ Hd)
      as (m & Hget & _ & Hs & _).
    rewrite Hget. f_equal. f_equal. exact (Hs _ eq_refl).
Defined.

(** A content type written in capitals: a match that ignores case
    selects JSON, the client decodes text. *)
Lemma content_type_match_is_case_sensitive :
  let resp := response 200 [("content-type", "Application/JSON")] json_a_1 in
  includes_ignoring_case "application/json" (contentType resp) = true
  /\ JSString.includes "application/json" (contentType resp) = false
  /\ run (answering resp) (apiGet ∅ "/x" VUndefined) = Fulfilled (VString json_a_1)
  /\ settle resp (if includes_ignoring_case "application/json" (contentType resp)
                  then Response.json resp else Response.text resp)
     = Fulfilled (VObject [("a", VNumber "1")])
  /\ run (answering resp) (apiGet ∅ "/x" VUndefined)
     <> settle resp (if includes_ignoring_case "application/json" (contentType resp)
                     then Response.json resp else Response.text resp).
Proof.
  intros resp. do 4 (split; [reflexivity|]).
  vm_compute. discriminate.
Qed.

Lemma content_type_rule_witness :
  let resp := response 200 [] "hello" in
  Headers.get (Response.headers resp) "content-type" = None
  /\ contentType resp = ""
  /\ run (answering resp) (apiGet ∅ "/x" VUndefined) = Fulfilled (VString "hello")
  /\ run (answering resp) (apiPost ∅ "/x" (VObject []) VUndefined)
     = Fulfilled (VString "hello").
Proof.
  intros resp.
  assert (Habs : Headers.get (Response.headers resp) "content-type" = None)
    by reflexivity.
  split; [exact Habs|].
  destruct (content_type_rule ∅ "/x" (VObject []) VUndefined resp)
    as (_ & _ & _ & Hrule).
  destruct (Hrule Habs) as (Hct & Hget & Hpost).
  split; [exact Hct|]. rewrite Hget, Hpost. split; reflexivity.
Defined.

(** A status 300 is in the range 200 to 399 and is rejected; a status
    200 whose body is announced as JSON and is not JSON is rejected
    too. *)
Lemma rejected_within_200_to_399 :
  let choices := response 300 text_header "Multiple Choices" in
  let broken := response 200 json_header "<html>" in
  (status_200_to_399 choices
   /\ Response.ok choices = false
   /\ run (answering choices) (apiGet ∅ "/x" VUndefined)
      = Rejected (Error "Multiple Choices")
   /\ run (answering choices) (apiPost ∅ "/x" (VObject []) VUndefined)
      = Rejected (Error "Multiple Choices"))
  /\ (status_200_to_399 broken
      /\ Response.ok broken = true
      /\ run (answering broken) (apiGet ∅ "/x" VUndefined)
         = Rejected (SyntaxError "<html>")
      /\ run (answering broken) (apiPost ∅ "/x" (VObject []) VUndefined)
         = Rejected (SyntaxError "<html>")).
Proof.
  intros choices broken. unfold status_200_to_399.
  split; (split; [simpl; lia|]); do 2 (split; [reflexivity|]); reflexivity.
Qed.

Lemma failure_signalling_witness :
  let failing := response 404 text_header "missing" in
  let fine := response 200 json_header json_a_1 in
  (Response.ok failing = false
   /\ is_rejected (run (answering failing) (apiGet ∅ "/x" VUndefined))
   /\ is_rejected (run (answering failing) (apiPost ∅ "/x" (VObject []) VUndefined)))
  /\ (Response.ok fine = true
      /\ 200 <= Response.status fine <= 299
      /\ run (answering fine) (apiGet ∅ "/x" VUndefined)
         = Fulfilled (VObject [("a", VNumber "1")]))
  /\ (run (answering failing) (apiGet ∅ "/x" VUndefined) = Rejected (Error "missing")
      /\ Response.ok failing = false).
Proof.
  intros failing fine.
  destruct (failure_signalling ∅ "/x" (VObject []) VUndefined failing)
    as (_ & Hrej & _ & _ & Hown).
  destruct (failure_signalling ∅ "/x" (VObject []) VUndefined fine)
    as (Hrange & _ & _ & Hok & _).
  assert (Hf : Response.ok failing = false) by reflexivity.
  assert (Ht : Response.ok fine = true) by reflexivity.
  assert (Hm : run (answering failing) (apiGet ∅ "/x" VUndefined)
               = Rejected (Error "missing")) by reflexivity.
  split; [|split].
  - split; [exact Hf | exact (Hrej Hf)].
  - split; [exact Ht|]. split; [exact (proj1 Hrange Ht)|].
    destruct (Hok Ht) as (Hget & _). rewrite Hget. reflexivity.
  - split; [exact Hm|]. exact (Hown "missing" (or_introl Hm)).
Defined.

(** A status 200 with an empty body announced as JSON: the call does
    not resolve. *)
Lemma success_without_json_body :
  let resp := response 200 json_header "" in
  Response.ok resp = true
  /\ JSString.includes "application/json" (contentType resp) = true
  /\ run (answering resp) (apiGet ∅ "/x" VUndefined) = Rejected (SyntaxError "")
  /\ run (answering resp) (apiPost ∅ "/x" (VObject []) VUndefined)
     = Rejected (SyntaxError "")
  /\ ~ (exists v, run (answering resp) (apiGet ∅ "/x" VUndefined) = Fulfilled v).
Proof.
  intros resp. do 4 (split; [reflexivity|]).
  intros [v Hv]. vm_compute in Hv. discriminate.
Qed.

Lemma success_resolution_witness :
  let resp := response 200 json_header json_a_1 in
  let plain := response 200 text_header "hello" in
  (Response.ok resp = true
   /\ JSString.includes "application/json" (contentType resp) = true
   /\ JSON.parse (Response.body resp) = Some (VObject [("a", VNumber "1")])
   /\ run (answering resp) (apiGet ∅ "/x" VUndefined)
      = Fulfilled (VObject [("a", VNumber "1")]))
  /\ (Response.ok plain = true
      /\ JSString.includes "application/json" (contentType plain) = false
      /\ run (answering plain) (apiGet ∅ "/x" VUndefined)
         = Fulfilled (VString "hello")).
Proof.
  intros resp plain. split.
  - assert (Hok : Response.ok resp = true) by reflexivity.
    assert (Hsel : JSString.includes "application/json" (contentType resp) = true)
      by reflexivity.
    assert (Hp : JSON.parse (Response.body resp)
                 = Some (VObject [("a", VNumber "1")])) by reflexivity.
    do 3 (split; [assumption|]).
    exact (proj1 (proj1 (proj1 (success_resolution
                                  ∅ "/x" (VObject []) VUndefined resp Hok) Hsel)
                          _ Hp)).
  - assert (Hok : Response.ok plain = true) by reflexivity.
    assert (Hsel : JSString.includes "application/json" (contentType plain) = false)
      by reflexivity.
    do 2 (split; [assumption|]).
    exact (proj1 (proj2 (success_resolution
                           ∅ "/x" (VObject []) VUndefined plain Hok) Hsel)).
Defined.

Lemma apiPost_request_witness :
  let net := answering (response 200 text_header "ok") in
  (exists init,
     requests net (apiPost ∅ "/x" VNull (VString "tok123"))
     = [("http://localhost:3001/x", init)]
     /\ Request.method init = "POST"
     /\ Request.headers init !! "Content-Type" = Some "application/json"
     /\ Request.headers init !! "Authorization" = Some "Bearer tok123"
     /\ Request.body init = VString "{}")
  /\ (exists init,
        requests net (apiPost ∅ "/x" (VObject [("a", VNumber "1")]) VUndefined)
        = [("http://localhost:3001/x", init)]
        /\ VObject [("a", VNumber "1")] <> VUndefined
        /\ VObject [("a", VNumber "1")] <> VNull
        /\ Request.headers init !! "Authorization" = None
        /\ Request.body init = VString json_a_1).
Proof.
  intros net. split.
  - destruct (proj1 (apiPost_request net ∅ "/x" VNull (VString "tok123")))
      as (init & Hr & Hm & Hct & _ & _ & Hnull & _).
    exists init. split; [exact Hr|]. split; [exact Hm|]. split; [exact Hct|].
    split; [|exact (Hnull (or_intror eq_refl))].
    vm_compute in Hr. inversion Hr. reflexivity.
  - match goal with
    | |- context [apiPost ∅ "/x" ?b VUndefined] => set (body := b)
    end.
    destruct (proj1 (apiPost_request net ∅ "/x" body VUndefined))
      as (init & Hr & _ & _ & _ & _ & _ & Hself).
    assert (Hu : body <> VUndefined) by discriminate.
    assert (Hn : body <> VNull) by discriminate.
    exists init. split; [exact Hr|]. split; [exact Hu|]. split; [exact Hn|].
    split; [|exact (Hself Hu Hn)].
    vm_compute in Hr. inversion Hr. reflexivity.
Defined.

Lemma apiGet_headers_witness :
  let net := answering (response 200 text_header "ok") in
  exists init,
    requests net (apiGet ∅ "/x" (VString "tok123"))
    = [("http://localhost:3001/x", init)]
    /\ Request.headers init = {[ "Authorization" := "Bearer tok123" ]}
    /\ "content-type" <> "Authorization"
    /\ Request.headers init !! "content-type" = None
    /\ Request.headers init !! "Content-Type" = None.
Proof.
  intros net.
  destruct (apiGet_headers net ∅ "/x" (VObject []) (VString "tok123"))
    as (init & _ & Hr & _ & Hh & _ & Hother & Hct & _).
  assert (Hne : "content-type" <> "Authorization") by discriminate.
  exists init. split; [exact Hr|]. split; [exact Hh|]. split; [exact Hne|].
  split; [exact (Hother _ Hne) | exact Hct].
Defined.

(** A failing response whose JSON body is an object with a [detail]
    member: the decoded detail is the object, not a string, so the
    message is the serialisation of the whole object. *)
Example failure_message_of_detail_object :
  let resp := response 400 json_header json_detail_bad_input in
  run (answering resp) (apiPost ∅ "/x" (VObject []) VUndefined)
  = Rejected (Error json_detail_bad_input).
Proof. reflexivity. Qed.

(** The path is appended as it is, with or without a leading slash. *)
Example path_is_appended_verbatim :
  let net := answering (response 200 text_header "ok") in
  List.map fst (requests net (apiGet ∅ "x?q=a b" VUndefined))
  = ["http://localhost:3001x?q=a b"].
Proof. reflexivity. Qed.

(** * Further properties of the client *)

(** ** Which configured values are used *)

Lemma trimStart_ascii_blank (s : string) :
  ascii_blank s = true -> JSString.trimStart s = "".
Proof.
  induction s as [|a s IH]; [reflexivity|].
  cbn [ascii_blank JSString.trimStart]. intros H.
  apply andb_true_iff in H. destruct H as [Ha Hs].
  rewrite Ha. exact (IH Hs).
Qed.

Lemma trim_ascii_blank (s : string) :
  ascii_blank s = true -> JSString.trim s = "".
Proof.
  intros H. unfold JSString.trim. now rewrite (trimStart_ascii_blank s H).
Qed.

Lemma ws1_not_visible a : JSString.ws1 a = true -> visible a = false.
Proof.
  unfold JSString.ws1, visible. generalize (JSString.code a). intros c H.
  apply orb_true_iff in H. rewrite andb_true_iff, N.eqb_eq, !N.leb_le in H.
  apply andb_false_iff. rewrite !N.leb_gt. lia.
Qed.

Lemma ws2_not_visible a b :
  JSString.ws2 a b = true -> visible a = false /\ visible b = false.
Proof.
  unfold JSString.ws2, visible.
  generalize (JSString.code a), (JSString.code b). intros x y H.
  rewrite andb_true_iff, !N.eqb_eq in H.
  rewrite !andb_false_iff, !N.leb_gt. lia.
Qed.

Lemma ws3_not_visible a b c :
  JSString.ws3 a b c = true ->
  visible a = false /\ visible b = false /\ visible c = false.
Proof.
  unfold JSString.ws3, visible.
  generalize (JSString.code a), (JSString.code b), (JSString.code c).
  intros x y z H.
  repeat rewrite ?orb_true_iff, ?andb_true_iff, ?N.eqb_eq, ?N.leb_le in H.
  rewrite !andb_false_iff, !N.leb_gt. lia.
Qed.

(** Trimming removes white space only: whether a visible character
    occurs is the same before and after. *)
Lemma has_visible_trimStart (s : string) :
  has_visible (JSString.trimStart s) = has_visible s.
Proof.
  remember (String.length s) as n eqn:Hn.
  revert s Hn. induction n as [n IH] using lt_wf_ind. intros s Hn.
  destruct s as [|a s1]; [reflexivity|].
  cbn [JSString.trimStart].
  destruct (JSString.ws1 a) eqn:H1.
  - rewrite (IH (String.length s1)) by (subst; simpl; lia || reflexivity).
    cbn [has_visible]. now rewrite (ws1_not_visible a H1).
  - destruct s1 as [|b s2]; [reflexivity|].
    destruct (JSString.ws2 a b) eqn:H2.
    + rewrite (IH (String.length s2)) by (subst; simpl; lia || reflexivity).
      destruct (ws2_not_visible a b H2) as [Ha Hb].
      cbn [has_visible]. now rewrite Ha, Hb.
    + destruct s2 as [|c s3]; [reflexivity|].
      destruct (JSString.ws3 a b c) eqn:H3; [|reflexivity].
      rewrite (IH (String.length s3)) by (subst; simpl; lia || reflexivity).
      destruct (ws3_not_visible a b c H3) as (Ha & Hb & Hc).
      cbn [has_visible]. now rewrite Ha, Hb, Hc.
Qed.

Lemma has_visible_trimStart_rev (s : string) :
  has_visible (JSString.trimStart_rev s) = has_visible s.
Proof.
  remember (String.length s) as n eqn:Hn.
  revert s Hn. induction n as [n IH] using lt_wf_ind. intros s Hn.
  destruct s as [|a s1]; [reflexivity|].
  cbn [JSString.trimStart_rev].
  destruct (JSString.ws1 a) eqn:H1.
  - rewrite (IH (String.length s1)) by (subst; simpl; lia || reflexivity).
    cbn [has_visible]. now rewrite (ws1_not_visible a H1).
  - destruct s1 as [|b s2]; [reflexivity|].
    destruct (JSString.ws2 b a) eqn:H2.
    + rewrite (IH (String.length s2)) by (subst; simpl; lia || reflexivity).
      destruct (ws2_not_visible b a H2) as [Hb Ha].
      cbn [has_visible]. now rewrite Ha, Hb.
    + destruct s2 as [|c s3]; [reflexivity|].
      destruct (JSString.ws3 c b a) eqn:H3; [|reflexivity].
      rewrite (IH (String.length s3)) by (subst; simpl; lia || reflexivity).
      destruct (ws3_not_visible c b a H3) as (Hc & Hb & Ha).
      cbn [has_visible]. now rewrite Ha, Hb, Hc.
Qed.

Lemma has_visible_rev_app (s acc : string) :
  has_visible (String.rev_app s acc) = has_visible s || has_visible acc.
Proof.
  revert acc. induction s as [|a s IH]; intros acc; [reflexivity|].
  cbn [String.rev_app]. rewrite IH. cbn [has_visible].
  destruct (visible a), (has_visible s), (has_visible acc); reflexivity.
Qed.

Lemma has_visible_rev (s : string) :
  has_visible (String.rev s) = has_visible s.
Proof.
  unfold String.rev. rewrite has_visible_rev_app. cbn [has_visible].
  apply orb_false_r.
Qed.

Lemma has_visible_trim (s : string) :
  has_visible (JSString.trim s) = has_visible s.
Proof.
  unfold JSString.trim, JSString.trimEnd.
  now rewrite has_visible_rev, has_visible_trimStart_rev, has_visible_rev,
    has_visible_trimStart.
Qed.

Lemma visible_not_blank (s : string) :
  has_visible s = true -> JSString.trim s <> "".
Proof.
  intros H Ht. rewrite <- has_visible_trim, Ht in H. discriminate.
Qed.

Lemma configured_value_kept (env : ProcessEnv) (s : string) :
  env !! REACT_APP_BACKEND_URL = Some s ->
  JSString.trim s <> "" ->
  getBackendBaseUrl env = s.
Proof.
  unfold getBackendBaseUrl. intros -> Hs.
  apply base_url_guard in Hs. now rewrite Hs.
Qed.

Lemma configured_value_dropped (env : ProcessEnv) (s : string) :
  env !! REACT_APP_BACKEND_URL = Some s ->
  JSString.trim s = "" ->
  getBackendBaseUrl env = "http://localhost:3001".
Proof.
  unfold getBackendBaseUrl. intros -> Hs.
  destruct (JSString.ToBoolean s && _) eqn:Hg; [|reflexivity].
  apply base_url_guard in Hg. contradiction.
Qed.

(** X1.  The base URL is never blank: whatever the environment holds,
    [getBackendBaseUrl] returns a text that does not trim to the empty
    string, hence is not empty, and that text is itself a value the
    function accepts, being returned unchanged when it is the configured
    value. *)
Theorem base_url_never_blank (env : ProcessEnv) :
  JSString.trim (getBackendBaseUrl env) <> ""
  /\ getBackendBaseUrl env <> ""
  /\ getBackendBaseUrl (<[ REACT_APP_BACKEND_URL := getBackendBaseUrl env ]> env)
     = getBackendBaseUrl env.
Proof.
  assert (Hblank : JSString.trim (getBackendBaseUrl env) <> "").
  { unfold getBackendBaseUrl.
    destruct (env !! REACT_APP_BACKEND_URL) as [s|];
      [|vm_compute; discriminate].
    destruct (JSString.ToBoolean s && _) eqn:Hg; [|vm_compute; discriminate].
    now apply base_url_guard. }
  split; [exact Hblank|]. split; [apply getBackendBaseUrl_nonempty|].
  apply configured_value_kept; [apply lookup_insert_eq | exact Hblank].
Qed.

(** X2.  A configured value made only of spaces, tabs and line breaks
    counts as not configured: the fallback is returned. *)
Theorem blank_value_falls_back (env : ProcessEnv) (s : string) :
  env !! REACT_APP_BACKEND_URL = Some s ->
  ascii_blank s = true ->
  getBackendBaseUrl env = "http://localhost:3001".
Proof.
  intros Hs Hb. apply (configured_value_dropped env s Hs).
  now apply trim_ascii_blank.
Qed.

(** X3.  A configured value in which a visible ASCII character occurs is
    returned as it is, white space around it included. *)
Theorem visible_value_is_kept (env : ProcessEnv) (s : string) :
  env !! REACT_APP_BACKEND_URL = Some s ->
  has_visible s = true ->
  getBackendBaseUrl env = s.
Proof.
  intros Hs Hv. apply (configured_value_kept env s Hs).
  now apply visible_not_blank.
Qed.

(** ** What a call sends and how it ends *)

Section Calls.

Context {NM : NumberModel}.

(** X4.  A call whose arguments are values of JSON or [undefined] (so
    that building the request does not throw) issues exactly one
    request, whatever the network answers: nothing is retried and
    nothing is sent after the response.  The request is the same for
    every network; that of [apiGet] is a GET without a body, that of
    [apiPost] a POST. *)
Theorem one_request_per_call env path body token :
  exists get_init post_init,
    Request.method get_init = "GET"
    /\ Request.body get_init = VUndefined
    /\ Request.method post_init = "POST"
    /\ forall net : Transport,
         requests net (apiGet env path token)
         = [(getBackendBaseUrl env +:+ path, get_init)]
         /\ requests net (apiPost env path body token)
            = [(getBackendBaseUrl env +:+ path, post_init)].
Proof.
  destruct (apiGet_shape env path token)
    as (get_init & get_k & -> & Hgm & _ & Hgb & Hget).
  destruct (apiPost_shape env path body token)
    as (post_init & post_k & -> & Hpm & _ & _ & Hpost).
  exists get_init, post_init.
  split; [exact Hgm|]. split; [exact Hgb|]. split; [exact Hpm|].
  intros net. split; apply requests_one; intros resp.
  - apply Hget.
  - apply Hpost.
Qed.

(** X5.  When the network fails, so that [fetch] is rejected and no
    response arrives, the call is rejected with that same error,
    unwrapped. *)
Theorem network_failure_is_passed_on (net : Transport) env path body token e :
  (forall init, net (getBackendBaseUrl env +:+ path) init = Rejected e) ->
  run net (apiGet env path token) = Rejected e
  /\ run net (apiPost env path body token) = Rejected e.
Proof.
  intros Hnet.
  destruct (apiGet_shape env path token) as (get_init & get_k & -> & _).
  destruct (apiPost_shape env path body token) as (post_init & post_k & -> & _).
  cbn [run]. now rewrite !Hnet.
Qed.

(** X6.  The request headers of [apiPost] are [Content-Type] and, when
    the token is truthy, [Authorization], and no other: one entry or
    two. *)
Theorem apiPost_headers net env path body token :
  exists init,
    requests net (apiPost env path body token)
    = [(getBackendBaseUrl env +:+ path, init)]
    /\ size (Request.headers init) = (if ToBoolean token then 2 else 1)%nat
    /\ (forall name, name <> "Content-Type" -> name <> "Authorization" ->
          Request.headers init !! name = None).
Proof.
  destruct (requests_apiPost net env path body token) as (init & Hr & _ & Hh & _).
  exists init. split; [exact Hr|]. rewrite Hh.
  destruct (ToBoolean token).
  - split.
    + rewrite map_size_insert_None, map_size_singleton; [reflexivity|].
      apply lookup_singleton_ne. discriminate.
    + intros name Hct Hauth.
      rewrite lookup_insert_ne by congruence.
      apply lookup_singleton_ne. congruence.
  - split; [apply map_size_singleton|].
    intros name Hct _. apply lookup_singleton_ne. congruence.
Qed.

Lemma settle_fulfilled resp d v :
  settle resp d = Fulfilled v -> Response.ok resp = true /\ d = Fulfilled v.
Proof.
  unfold settle. destruct (Response.ok resp); [auto|].
  destruct d; discriminate.
Qed.

Lemma run_fetch_fulfilled {A : Type} (net : Transport) url init
    (k : Response.t -> Async A) (a : A) :
  run net (Fetch url init k) = Fulfilled a ->
  exists resp, net url init = Fulfilled resp /\ run net (k resp) = Fulfilled a.
Proof.
  cbn [run]. destruct (net url init) as [resp|e]; [eauto | discriminate].
Qed.

(** X7.  A call resolves only when the network delivered a response
    that is ok, and then to the decoding of its body; the value it
    resolves to is never [undefined]. *)
Theorem resolves_only_when_ok (net : Transport) env path body token v :
  run net (apiGet env path token) = Fulfilled v
  \/ run net (apiPost env path body token) = Fulfilled v ->
  exists init resp,
    net (getBackendBaseUrl env +:+ path) init = Fulfilled resp
    /\ Response.ok resp = true
    /\ decoded resp = Fulfilled v
    /\ v <> VUndefined.
Proof.
  destruct (apiGet_shape env path token)
    as (get_init & get_k & -> & _ & _ & _ & Hget).
  destruct (apiPost_shape env path body token)
    as (post_init & post_k & -> & _ & _ & _ & Hpost).
  intros [H|H]; apply run_fetch_fulfilled in H; destruct H as (resp & Hnet & Hk).
  - rewrite (proj1 (Hget net resp)) in Hk.
    apply settle_fulfilled in Hk. destruct Hk as [Hok Hd].
    exists get_init, resp. eauto using decoded_defined.
  - rewrite (proj1 (Hpost net resp)) in Hk.
    apply settle_fulfilled in Hk. destruct Hk as [Hok Hd].
    exists post_init, resp. eauto using decoded_defined.
Qed.

(** X8.  For a failing response whose content type does not name JSON,
    an absent content type included, the message of the error is the
    body text as it is; an empty body gives an empty message. *)
Theorem text_failure_message env path body token resp :
  Response.ok resp = false ->
  JSString.includes "application/json" (contentType resp) = false ->
  run (answering resp) (apiGet env path token)
  = Rejected (Error (Response.body resp))
  /\ run (answering resp) (apiPost env path body token)
     = Rejected (Error (Response.body resp)).
Proof.
  intros Hok Hct. rewrite run_apiGet, run_apiPost.
  unfold settle, decoded, Response.text. rewrite Hok, Hct.
  split; reflexivity.
Qed.

(** X9.  For a token that is a string, the [Authorization] header is
    sent exactly when the string is not empty, and carries the string
    as it is after ["Bearer "]; an empty string, [null] and [undefined]
    all send none. *)
Theorem authorization_of_string_token net env path body (s : string) :
  exists get_init post_init,
    requests net (apiGet env path (VString s))
    = [(getBackendBaseUrl env +:+ path, get_init)]
    /\ requests net (apiPost env path body (VString s))
       = [(getBackendBaseUrl env +:+ path, post_init)]
    /\ (s <> "" ->
        Request.headers get_init !! "Authorization" = Some ("Bearer " +:+ s)
        /\ Request.headers post_init !! "Authorization" = Some ("Bearer " +:+ s))
    /\ (s = "" ->
        Request.headers get_init !! "Authorization" = None
        /\ Request.headers post_init !! "Authorization" = None
        /\ requests net (apiGet env path (VString s))
           = requests net (apiGet env path VUndefined)
        /\ requests net (apiGet env path (VString s))
           = requests net (apiGet env path VNull)
        /\ requests net (apiPost env path body (VString s))
           = requests net (apiPost env path body VUndefined)).
Proof.
  destruct (requests_apiGet net env path (VString s)) as (gi & Hg & Hgm & Hgh & Hgb).
  destruct (requests_apiPost net env path body (VString s))
    as (pi & Hp & Hpm & Hph & Hpb).
  exists gi, pi. split; [exact Hg|]. split; [exact Hp|].
  cbn [ToBoolean ToString] in Hgh, Hph. split.
  - intros Hs. apply ToBoolean_string_iff in Hs. rewrite Hs in Hgh, Hph.
    rewrite Hgh, Hph.
    split; [apply lookup_singleton_eq | apply lookup_insert_eq].
  - intros ->. cbn [JSString.ToBoolean] in Hgh, Hph. rewrite Hgh, Hph.
    split; [apply lookup_empty|].
    split; [apply lookup_singleton_ne; discriminate|].
    split; [reflexivity|]. split; reflexivity.
Qed.

End Calls.

(** ** The wire round trip *)

Lemma append_cons (x : ascii) (a b : string) :
  String x a +:+ b = String x (a +:+ b).
Proof. reflexivity. Qed.

Lemma append_assoc (a b c : string) : (a +:+ b) +:+ c = a +:+ (b +:+ c).
Proof.
  induction a as [|x a IH]; [reflexivity|].
  rewrite !append_cons. f_equal. exact IH.
Qed.

Lemma append_empty_r (a : string) : a +:+ "" = a.
Proof.
  induction a as [|x a IH]; [reflexivity|].
  rewrite append_cons. f_equal. exact IH.
Qed.

Lemma rev_app_rev_app (s acc t : string) :
  String.rev_app (String.rev_app s acc) t = String.rev_app acc (s +:+ t).
Proof.
  revert acc. induction s as [|a s IH]; intros acc; [reflexivity|].
  cbn [String.rev_app]. rewrite IH. reflexivity.
Qed.

Lemma tokenize_lex_all (s : string) :
  JSON.tokenize s = lex_all (JSON.LDefault, []) s.
Proof.
  unfold JSON.tokenize. generalize (JSON.LDefault, @nil JSON.Token).
  induction s as [|a s IH]; intros st; [reflexivity|].
  cbn [JSON.lex_run lex_all]. destruct (JSON.lex_step st a); [apply IH | reflexivity].
Qed.

(** *** Numbers *)

Lemma lex_default_number a st toks :
  num_start a = Some st ->
  JSON.lex_default a toks = Some (JSON.LNumber st (String a ""), toks).
Proof.
  destruct a as [[] [] [] [] [] [] [] []]; vm_compute; intros H;
    try discriminate; inversion H; reflexivity.
Qed.

Lemma lex_number_digits st s st' acc toks rest :
  num_run st s = Some st' ->
  lex_all (JSON.LNumber st acc, toks) (s +:+ rest)
  = lex_all (JSON.LNumber st' (String.rev_app s acc), toks) rest.
Proof.
  revert st acc. induction s as [|a s IH]; intros st acc; cbn [num_run].
  - intros H. inversion H. reflexivity.
  - destruct (JSON.num_step st a) as [st1|] eqn:Hstep; [|discriminate].
    intros H. rewrite append_cons. cbn [lex_all JSON.lex_step]. rewrite Hstep.
    cbn [String.rev_app]. apply IH. exact H.
Qed.

Lemma lex_number_end st acc toks rest :
  JSON.num_accepting st = true ->
  delimited rest ->
  lex_all (JSON.LNumber st acc, toks) rest
  = lex_all (JSON.LDefault, JSON.TNumber (String.rev acc) :: toks) rest.
Proof.
  intros Hacc Hrest. destruct Hrest; cbn [lex_all JSON.lex_step JSON.lex_finish].
  - now rewrite Hacc.
  - destruct st; try discriminate; reflexivity.
  - destruct st; try discriminate; reflexivity.
  - destruct st; try discriminate; reflexivity.
Qed.

Lemma lex_number lit toks rest :
  is_number_literal lit = true ->
  delimited rest ->
  lex_all (JSON.LDefault, toks) (lit +:+ rest)
  = lex_all (JSON.LDefault, JSON.TNumber lit :: toks) rest.
Proof.
  unfold is_number_literal. destruct lit as [|a s]; [discriminate|].
  destruct (num_start a) as [st|] eqn:Hstart; [|discriminate].
  destruct (num_run st s) as [st'|] eqn:Hrun; [|discriminate].
  intros Hacc Hrest.
  rewrite append_cons. cbn [lex_all JSON.lex_step].
  rewrite (lex_default_number a st toks Hstart).
  rewrite (lex_number_digits st s st' _ toks rest Hrun).
  rewrite (lex_number_end st' _ toks rest Hacc Hrest).
  unfold String.rev. rewrite rev_app_rev_app. cbn [String.rev_app].
  now rewrite append_empty_r.
Qed.

(** *** Strings *)

Lemma append_empty_l (a : string) : "" +:+ a = a.
Proof. reflexivity. Qed.

Lemma lex_unicode_escape (c : N) acc toks rest :
  (c < 32)%N ->
  lex_all (JSON.LString acc, toks) ("\u" +:+ JSON.hex4 c +:+ rest)
  = lex_all (JSON.LString (JSON.Unit c :: acc), toks) rest.
Proof.
  intros Hc. destruct c as [|p]; [reflexivity|].
  repeat (destruct p as [p|p|]; try lia); reflexivity.
Qed.

Lemma quote_chars_cons a s1 :
  JSON.quote_chars (String a s1)
  = (let c := JSString.code a in
     let plain := String a (JSON.quote_chars s1) in
     if (c =? 8)%N then "\b" +:+ JSON.quote_chars s1
     else if (c =? 9)%N then "\t" +:+ JSON.quote_chars s1
     else if (c =? 10)%N then "\n" +:+ JSON.quote_chars s1
     else if (c =? 12)%N then "\f" +:+ JSON.quote_chars s1
     else if (c =? 13)%N then "\r" +:+ JSON.quote_chars s1
     else if (c =? 34)%N then "\" +:+ JSON.quote +:+ JSON.quote_chars s1
     else if (c =? 92)%N then "\\" +:+ JSON.quote_chars s1
     else if (c <? 32)%N then "\u" +:+ JSON.hex4 c +:+ JSON.quote_chars s1
     else if (c =? 237)%N then
       match s1 with
       | String b (String d s3) =>
           if (160 <=? JSString.code b)%N && (JSString.code b <=? 191)%N
           then "\u" +:+ JSON.hex4 (53248 + (JSString.code b - 128) * 64
                                     + (JSString.code d - 128))%N
                  +:+ JSON.quote_chars s3
           else plain
       | _ => plain
       end
     else plain).
Proof. reflexivity. Qed.

Lemma lex_string_char a s1 acc toks rest :
  no_surrogate (String a s1) = true ->
  lex_all (JSON.LString acc, toks) (JSON.quote_chars (String a s1) +:+ rest)
  = lex_all (JSON.LString (item_of a :: acc), toks)
      (JSON.quote_chars s1 +:+ rest).
Proof.
  intros Hs. cbn [no_surrogate] in Hs. apply andb_true_iff in Hs.
  destruct Hs as [Ha _]. apply negb_true_iff in Ha.
  rewrite quote_chars_cons. unfold item_of. cbv zeta.
  unfold JSON.quote.
  destruct (JSString.code a =? 8)%N eqn:E8.
  { apply N.eqb_eq in E8. rewrite E8. reflexivity. }
  destruct (JSString.code a =? 9)%N eqn:E9.
  { apply N.eqb_eq in E9. rewrite E9. reflexivity. }
  destruct (JSString.code a =? 10)%N eqn:E10.
  { apply N.eqb_eq in E10. rewrite E10. reflexivity. }
  destruct (JSString.code a =? 12)%N eqn:E12.
  { apply N.eqb_eq in E12. rewrite E12. reflexivity. }
  destruct (JSString.code a =? 13)%N eqn:E13.
  { apply N.eqb_eq in E13. rewrite E13. reflexivity. }
  destruct (JSString.code a =? 34)%N eqn:E34.
  { apply N.eqb_eq in E34. rewrite E34. reflexivity. }
  destruct (JSString.code a =? 92)%N eqn:E92.
  { apply N.eqb_eq in E92. rewrite E92. reflexivity. }
  destruct (JSString.code a <? 32)%N eqn:E32.
  { cbn [orb]. rewrite append_assoc.
    apply lex_unicode_escape. now apply N.ltb_lt. }
  cbn [orb].
  assert (Hplain :
    lex_all (JSON.LString acc, toks) (String a (JSON.quote_chars s1) +:+ rest)
    = lex_all (JSON.LString (JSON.Raw a :: acc), toks)
        (JSON.quote_chars s1 +:+ rest)).
  { rewrite append_cons. cbn [lex_all JSON.lex_step].
    unfold JSON.is_quote, JSON.is_backslash. now rewrite E34, E92, E32. }
  destruct (JSString.code a =? 237)%N eqn:E237; [|exact Hplain].
  cbn [andb] in Ha.
  destruct s1 as [|b [|d s3]]; try exact Hplain.
  rewrite Ha. exact Hplain.
Qed.

Lemma no_surrogate_tail a s :
  no_surrogate (String a s) = true -> no_surrogate s = true.
Proof. cbn [no_surrogate]. intros H. now apply andb_true_iff in H. Qed.

Lemma lex_string_body s acc toks rest :
  no_surrogate s = true ->
  lex_all (JSON.LString acc, toks) (JSON.quote_chars s +:+ rest)
  = lex_all (JSON.LString (rev (List.map item_of (list_ascii_of_string s)) ++ acc),
             toks) rest.
Proof.
  revert acc. induction s as [|a s IH]; intros acc Hs; [reflexivity|].
  rewrite (lex_string_char a s acc toks rest Hs).
  rewrite (IH _ (no_surrogate_tail a s Hs)).
  cbn [list_ascii_of_string List.map rev]. now rewrite <- app_assoc.
Qed.

Lemma code_bounded a : (JSString.code a < 256)%N.
Proof. apply N_ascii_bounded. Qed.

Lemma byte_code a : JSON.byte (JSString.code a) = a.
Proof. apply ascii_N_embedding. Qed.

Lemma decode_item_of a l :
  JSON.decode_items (item_of a :: l) = String a (JSON.decode_items l).
Proof.
  unfold item_of.
  destruct ((JSString.code a <? 32) || (JSString.code a =? 34)
            || (JSString.code a =? 92))%N eqn:E; [|reflexivity].
  assert (Hlow : (JSString.code a < 128)%N).
  { rewrite !orb_true_iff, N.ltb_lt, !N.eqb_eq in E. lia. }
  assert (Hutf : JSON.utf8 (JSString.code a) = String a "").
  { unfold JSON.utf8. apply N.ltb_lt in Hlow. rewrite Hlow.
    now rewrite byte_code. }
  assert (Hhigh : JSON.is_high_surrogate (JSString.code a) = false).
  { unfold JSON.is_high_surrogate. apply andb_false_iff. left.
    apply N.leb_gt. lia. }
  cbn [JSON.decode_items].
  destruct l as [|[b|v] l]; rewrite ?Hhigh, Hutf; reflexivity.
Qed.

Lemma decode_items_of s :
  JSON.decode_items (List.map item_of (list_ascii_of_string s)) = s.
Proof.
  induction s as [|a s IH]; [reflexivity|].
  cbn [list_ascii_of_string List.map]. rewrite decode_item_of. now rewrite IH.
Qed.

Lemma lex_string s toks rest :
  no_surrogate s = true ->
  lex_all (JSON.LDefault, toks) (JSON.QuoteJSONString s +:+ rest)
  = lex_all (JSON.LDefault, JSON.TString s :: toks) rest.
Proof.
  intros Hs. unfold JSON.QuoteJSONString, JSON.quote.
  rewrite !append_assoc, append_cons, append_empty_l.
  cbn [lex_all JSON.lex_step].
  change (JSON.lex_default (JSON.byte 34) toks)
    with (Some (JSON.LString [], toks)).
  cbv iota. rewrite (lex_string_body s [] toks _ Hs).
  rewrite append_cons, append_empty_l. cbn [lex_all JSON.lex_step].
  change (JSON.is_quote (JSON.byte 34)) with true. cbv iota.
  rewrite app_nil_r, rev_involutive, decode_items_of. reflexivity.
Qed.

(** *** Values *)

Local Open Scope list_scope.

Section WireFacts.

Context {NM : NumberModel}.

Lemma JSValue_induction (P : JSValue -> Prop) :
  P VUndefined -> P VNull -> (forall b, P (VBoolean b)) ->
  (forall n, P (VNumber n)) -> (forall s, P (VString s)) ->
  (forall l, Forall P l -> P (VArray l)) ->
  (forall ps, Forall (fun p => P (snd p)) ps -> P (VObject ps)) ->
  forall v, P v.
Proof.
  intros Hu Hn Hb Hnum Hs Ha Ho. fix IH 1. intros v.
  destruct v as [| |b|n|s|l|ps];
    [exact Hu | exact Hn | apply Hb | apply Hnum | apply Hs | |].
  - apply Ha. induction l as [|x l IHl]; constructor; [apply IH | exact IHl].
  - apply Ho. induction ps as [|[k x] ps IHps]; constructor;
      [apply IH | exact IHps].
Qed.

Lemma echoable_array l : echoable (VArray l) <-> Forall echoable l.
Proof.
  cbn [echoable]. induction l as [|x l IH].
  - split; [constructor | trivial].
  - split.
    + intros [Hx Hl]. constructor; [exact Hx | now apply IH].
    + intros H. inversion H; subst. split; [assumption | now apply IH].
Qed.

Lemma echoable_object ps :
  echoable (VObject ps) <->
  assemble [] ps = ps
  /\ Forall (fun p => no_surrogate (fst p) = true /\ echoable (snd p)) ps.
Proof.
  cbn [echoable]. apply and_iff_compat_l.
  induction ps as [|[k x] ps IH].
  - split; [constructor | trivial].
  - split.
    + intros [Hx Hl]. constructor; [exact Hx | now apply IH].
    + intros H. inversion H; subst. split; [assumption | now apply IH].
Qed.

Lemma serialize_defined v : v <> VUndefined -> JSON.serialize v = Some (ser v).
Proof.
  unfold ser. destruct v as [| |[]| | | |]; intros H; try reflexivity.
  congruence.
Qed.

Lemma echoable_defined v : echoable v -> v <> VUndefined.
Proof. intros H ->. exact H. Qed.

Lemma ser_array l :
  ser (VArray l) = "[" +:+ JSON.join_comma (List.map ser l) +:+ "]".
Proof. reflexivity. Qed.

Lemma ser_object ps :
  Forall (fun p => snd p <> VUndefined) ps ->
  ser (VObject ps) = "{" +:+ JSON.join_comma (List.map member_text ps) +:+ "}".
Proof.
  intros H. unfold ser at 1. cbn [JSON.serialize]. do 3 f_equal.
  induction H as [|p ps Hp Hps IH]; [reflexivity|].
  cbn [List.map List.concat]. rewrite (serialize_defined _ Hp), IH. reflexivity.
Qed.

Lemma lex_pieces {A : Type} (text : A -> string)
    (toksof : A -> list JSON.Token) (l : list A) (closing : string) :
  Forall (fun x => forall toks rest, delimited rest ->
            lex_all (JSON.LDefault, toks) (text x +:+ rest)
            = lex_all (JSON.LDefault, rev (toksof x) ++ toks) rest) l ->
  delimited closing ->
  forall toks,
    lex_all (JSON.LDefault, toks) (JSON.join_comma (List.map text l) +:+ closing)
    = lex_all (JSON.LDefault,
               rev (sep_concat JSON.TComma (List.map toksof l)) ++ toks) closing.
Proof.
  intros Hl Hc. induction Hl as [|x l Hx Hl IH]; intros toks; [reflexivity|].
  destruct l as [|y l].
  - cbn [List.map JSON.join_comma sep_concat]. now apply Hx.
  - change (JSON.join_comma (List.map text (x :: y :: l)))
      with (text x +:+ "," +:+ JSON.join_comma (List.map text (y :: l))).
    change (sep_concat JSON.TComma (List.map toksof (x :: y :: l)))
      with (toksof x ++ JSON.TComma
              :: sep_concat JSON.TComma (List.map toksof (y :: l))).
    rewrite !append_assoc, append_cons, append_empty_l.
    rewrite Hx by constructor.
    cbn [lex_all JSON.lex_step].
    change (JSON.lex_default "," (rev (toksof x) ++ toks))
      with (Some (JSON.LDefault, JSON.TComma :: rev (toksof x) ++ toks)).
    cbv iota. rewrite IH.
    rewrite rev_app_distr. cbn [rev]. now rewrite <- !app_assoc.
Qed.

Lemma lex_value v :
  echoable v ->
  forall toks rest, delimited rest ->
    lex_all (JSON.LDefault, toks) (ser v +:+ rest)
    = lex_all (JSON.LDefault, rev (tokens_of v) ++ toks) rest.
Proof.
  induction v as [| |b|n|s|l IH|ps IH] using JSValue_induction;
    intros He toks rest Hrest.
  - destruct He.
  - reflexivity.
  - destruct b; reflexivity.
  - destruct He as (Hfin & Hlit & _).
    unfold ser. cbn [JSON.serialize]. rewrite Hfin.
    now apply lex_number.
  - cbn [echoable] in He. now apply lex_string.
  - apply echoable_array in He.
    rewrite ser_array, !append_assoc, append_cons, append_empty_l.
    cbn [lex_all JSON.lex_step].
    change (JSON.lex_default "[" toks)
      with (Some (JSON.LDefault, JSON.TLBracket :: toks)).
    cbv iota. rewrite append_cons, append_empty_l.
    rewrite (lex_pieces ser tokens_of l).
    + cbn [lex_all JSON.lex_step tokens_of].
      match goal with
      | |- context [JSON.lex_default "]" ?t] =>
          change (JSON.lex_default "]" t)
            with (Some (JSON.LDefault, JSON.TRBracket :: t))
      end.
      cbv iota. cbn [rev]. rewrite rev_app_distr. cbn [rev app].
      rewrite <- !app_assoc. reflexivity.
    + rewrite Forall_forall in *. intros x Hx. apply IH; auto.
    + constructor.
  - apply echoable_object in He. destruct He as [_ He].
    rewrite ser_object
      by (rewrite Forall_forall in *; intros p Hp;
          apply echoable_defined; now apply He).
    rewrite !append_assoc, append_cons, append_empty_l.
    cbn [lex_all JSON.lex_step].
    change (JSON.lex_default "{" toks)
      with (Some (JSON.LDefault, JSON.TLBrace :: toks)).
    cbv iota. rewrite append_cons, append_empty_l.
    rewrite (lex_pieces member_text
               (fun p => JSON.TString (fst p) :: JSON.TColon
                           :: tokens_of (snd p)) ps).
    + cbn [lex_all JSON.lex_step tokens_of].
      match goal with
      | |- context [JSON.lex_default "}" ?t] =>
          change (JSON.lex_default "}" t)
            with (Some (JSON.LDefault, JSON.TRBrace :: t))
      end.
      cbv iota. cbn [rev]. rewrite rev_app_distr. cbn [rev app].
      rewrite <- !app_assoc. reflexivity.
    + rewrite Forall_forall in *. intros p Hp toks' rest' Hrest'.
      destruct (He p Hp) as [Hk Hx].
      unfold member_text. rewrite !append_assoc.
      rewrite (lex_string _ _ _ Hk).
      rewrite append_cons, append_empty_l. cbn [lex_all JSON.lex_step].
      change (JSON.lex_default ":" (JSON.TString (fst p) :: toks'))
        with (Some (JSON.LDefault, JSON.TColon :: JSON.TString (fst p) :: toks')).
      cbv iota. rewrite (IH p Hp Hx _ _ Hrest').
      cbn [rev]. now rewrite <- !app_assoc.
    + constructor.
Qed.

Lemma tokenize_ser v :
  echoable v -> JSON.tokenize (ser v) = Some (tokens_of v).
Proof.
  intros He. rewrite tokenize_lex_all.
  rewrite <- (append_empty_r (ser v)).
  rewrite (lex_value v He [] "" delimited_end).
  cbn [lex_all JSON.lex_finish]. now rewrite app_nil_r, rev_involutive.
Qed.

End WireFacts.

(** *** Reading the tokens back *)

Section WireParse.

Context {NM : NumberModel}.

Lemma parse_first_element x stack ts :
  echoable x ->
  JSON.parse_run (JSON.PArrayStart, stack) (tokens_of x ++ ts)
  = JSON.parse_run (JSON.PValue, JSON.FArray [] :: stack) (tokens_of x ++ ts).
Proof.
  destruct x as [| |[]| | | |]; intros He; try reflexivity.
  destruct He.
Qed.

Lemma parse_array_start l stack ts :
  l <> [] -> Forall echoable l ->
  JSON.parse_run (JSON.PArrayStart, stack)
    (sep_concat JSON.TComma (List.map tokens_of l) ++ ts)
  = JSON.parse_run (JSON.PValue, JSON.FArray [] :: stack)
      (sep_concat JSON.TComma (List.map tokens_of l) ++ ts).
Proof.
  intros Hne Hl. destruct l as [|x l]; [congruence|].
  assert (Hx : echoable x) by (inversion Hl; assumption).
  destruct l as [|y l].
  - cbn [List.map sep_concat]. now apply parse_first_element.
  - change (sep_concat JSON.TComma (List.map tokens_of (x :: y :: l)))
      with (tokens_of x ++ JSON.TComma
              :: sep_concat JSON.TComma (List.map tokens_of (y :: l))).
    rewrite <- app_assoc. now apply parse_first_element.
Qed.

Lemma parse_elements l :
  Forall reads_back l -> l <> [] ->
  forall done stack ts,
    JSON.parse_run (JSON.PValue, JSON.FArray done :: stack)
      (sep_concat JSON.TComma (List.map tokens_of l) ++ JSON.TRBracket :: ts)
    = JSON.parse_run (JSON.PDone (VArray (rev done ++ l)), stack) ts.
Proof.
  intros Hl. induction Hl as [|x l Hx Hl IH]; intros Hne done stack ts;
    [congruence|].
  destruct l as [|y l].
  - cbn [List.map sep_concat]. rewrite Hx. reflexivity.
  - change (sep_concat JSON.TComma (List.map tokens_of (x :: y :: l)))
      with (tokens_of x ++ JSON.TComma
              :: sep_concat JSON.TComma (List.map tokens_of (y :: l))).
    rewrite <- app_assoc. rewrite Hx.
    cbn [app JSON.parse_run JSON.parse_step].
    rewrite IH by discriminate.
    cbn [rev]. now rewrite <- app_assoc.
Qed.

Lemma parse_members ps :
  Forall (fun p => reads_back (snd p)) ps -> ps <> [] ->
  forall done stack ts,
    JSON.parse_run (JSON.PKey done, stack)
      (sep_concat JSON.TComma (List.map member_tokens ps) ++ JSON.TRBrace :: ts)
    = JSON.parse_run (JSON.PDone (VObject (assemble done ps)), stack) ts.
Proof.
  intros Hl. induction Hl as [|[k x] ps Hx Hl IH]; intros Hne done stack ts;
    [congruence|].
  cbn [snd] in Hx.
  destruct ps as [|q ps].
  - cbn [List.map sep_concat]. unfold member_tokens. cbn [fst snd].
    cbn [app JSON.parse_run JSON.parse_step]. rewrite Hx. reflexivity.
  - change (sep_concat JSON.TComma (List.map member_tokens ((k, x) :: q :: ps)))
      with (member_tokens (k, x) ++ JSON.TComma
              :: sep_concat JSON.TComma (List.map member_tokens (q :: ps))).
    unfold member_tokens at 1. cbn [fst snd].
    cbn [app JSON.parse_run JSON.parse_step].
    rewrite <- app_assoc. rewrite Hx.
    cbn [app JSON.parse_run JSON.parse_step].
    rewrite IH by discriminate. reflexivity.
Qed.

Lemma parse_value v : echoable v -> reads_back v.
Proof.
  induction v as [| |b|n|s|l IH|ps IH] using JSValue_induction;
    intros He stack ts.
  - destruct He.
  - reflexivity.
  - destruct b; reflexivity.
  - destruct He as (_ & _ & Hback).
    cbn [tokens_of app JSON.parse_run JSON.parse_step JSON.parse_value_token].
    now rewrite Hback.
  - reflexivity.
  - apply echoable_array in He.
    cbn [tokens_of app JSON.parse_run JSON.parse_step JSON.parse_value_token].
    destruct l as [|x l]; [reflexivity|].
    rewrite <- app_assoc. cbn [app].
    rewrite parse_array_start by (discriminate || exact He).
    apply (parse_elements (x :: l)); [|discriminate].
    rewrite Forall_forall in *. intros z Hz. apply IH; auto.
  - apply echoable_object in He. destruct He as [Hcanon He].
    cbn [tokens_of app JSON.parse_run JSON.parse_step JSON.parse_value_token].
    destruct ps as [|[k x] ps]; [reflexivity|].
    rewrite <- app_assoc.
    transitivity
      (JSON.parse_run (JSON.PKey [], stack)
         (sep_concat JSON.TComma (List.map member_tokens ((k, x) :: ps))
            ++ JSON.TRBrace :: ts)).
    + destruct ps; reflexivity.
    + rewrite parse_members; [now rewrite Hcanon | | discriminate].
      rewrite Forall_forall in *. intros p Hp. apply IH; [exact Hp|].
      now apply He.
Qed.

(** [JSON.parse] gives an echoable value back from its serialisation. *)
Lemma parse_ser v : echoable v -> JSON.parse (ser v) = Some v.
Proof.
  intros He. unfold JSON.parse. rewrite (tokenize_ser v He).
  rewrite <- (app_nil_r (tokens_of v)). rewrite (parse_value v He [] []).
  reflexivity.
Qed.

Lemma stringify_ser v : v <> VUndefined -> JSON.stringify v = VString (ser v).
Proof.
  intros H. unfold JSON.stringify. now rewrite (serialize_defined v H).
Qed.

End WireParse.

(** *** Objects with plain keys *)

Section WireObjects.

Context {NM : NumberModel}.

Lemma has_key_false k (ps : list (string * JSValue)) :
  ~ In k (List.map fst ps) -> JSON.has_key k ps = false.
Proof.
  induction ps as [|[k' v] ps IH]; intros Hk; [reflexivity|].
  cbn [JSON.has_key existsb fst]. cbn [List.map fst In] in Hk.
  destruct (String.eqb_spec k' k) as [->|Hne]; [tauto|].
  cbn [orb]. apply IH. tauto.
Qed.

(** Keys that are pairwise distinct and are not array indices stay in
    the order in which they are defined. *)
Lemma assemble_plain_keys (ps done : list (string * JSValue)) :
  List.NoDup (List.map fst (done ++ ps)) ->
  Forall (fun p => JSON.array_index (fst p) = None) ps ->
  assemble done ps = done ++ ps.
Proof.
  revert done. induction ps as [|[k v] ps IH]; intros done Hnd Hidx.
  - cbn [assemble]. now rewrite app_nil_r.
  - inversion Hidx as [|p ps' Hk Hps]; subst. cbn [fst] in Hk.
    cbn [assemble]. unfold JSON.define_property.
    rewrite has_key_false, Hk.
    + rewrite IH; [now rewrite <- app_assoc | | exact Hps].
      now rewrite <- app_assoc.
    + rewrite List.map_app in Hnd. cbn [List.map fst] in Hnd.
      apply NoDup_remove_2 in Hnd. intros Hin. apply Hnd.
      apply in_or_app. now left.
Qed.

End WireObjects.

(** ** Sending a body and reading it back *)

Section Echo.

Context {NM : NumberModel}.

(** X10.  What [apiPost] sends can be read back: for a body that is
    echoable (the empty object standing for an absent one), the payload
    is a JSON text that parses to that body, and a server that answers
    with the payload it received, announced as JSON, makes the call
    resolve to the body that was sent. *)
Theorem posted_body_is_echoed env path body token :
  echoable (nullish_coalesce body (VObject [])) ->
  exists init payload,
    requests echo_server (apiPost env path body token)
    = [(getBackendBaseUrl env +:+ path, init)]
    /\ Request.body init = VString payload
    /\ JSON.parse payload = Some (nullish_coalesce body (VObject []))
    /\ run echo_server (apiPost env path body token)
       = Fulfilled (nullish_coalesce body (VObject [])).
Proof.
  intros He.
  destruct (apiPost_shape env path body token)
    as (init & k & Hshape & _ & _ & Hb & Hk).
  rewrite (stringify_ser _ (echoable_defined _ He)) in Hb.
  exists init, (ser (nullish_coalesce body (VObject []))).
  rewrite Hshape.
  split; [apply requests_one; intros resp; apply Hk|].
  split; [exact Hb|]. split; [now apply parse_ser|].
  cbn [run]. unfold echo_server at 1. rewrite Hb.
  rewrite (proj1 (Hk _ _)).
  change (settle (response 200 json_header (ser (nullish_coalesce body (VObject []))))
            (decoded (response 200 json_header
                        (ser (nullish_coalesce body (VObject []))))))
    with (Response.json (response 200 json_header
                           (ser (nullish_coalesce body (VObject []))))).
  unfold Response.json. cbn [Response.body response].
  now rewrite (parse_ser _ He).
Qed.

(** X11.  A failing response whose body, announced as JSON, is a JSON
    string gives that string, without its quotation marks and escapes,
    as the message of the error. *)
Theorem json_string_failure_message env path body token resp (m : string) :
  Response.ok resp = false ->
  JSString.includes "application/json" (contentType resp) = true ->
  no_surrogate m = true ->
  Response.body resp = JSON.QuoteJSONString m ->
  run (answering resp) (apiGet env path token) = Rejected (Error m)
  /\ run (answering resp) (apiPost env path body token) = Rejected (Error m).
Proof.
  intros Hok Hct Hm Hbody. rewrite run_apiGet, run_apiPost.
  unfold settle, decoded, Response.json. rewrite Hok, Hct, Hbody.
  change (JSON.QuoteJSONString m) with (ser (VString m)).
  rewrite (parse_ser (VString m) Hm). split; reflexivity.
Qed.

End Echo.

Section EchoableObjects.

Context {NM : NumberModel}.

(** An object whose keys are pairwise distinct, are not array indices
    and hold no lone surrogate is echoable when its values are. *)
Lemma echoable_plain_object (ps : list (string * JSValue)) :
  List.NoDup (List.map fst ps) ->
  Forall (fun p => JSON.array_index (fst p) = None) ps ->
  Forall (fun p => no_surrogate (fst p) = true /\ echoable (snd p)) ps ->
  echoable (VObject ps).
Proof.
  intros Hnd Hidx Hps. apply echoable_object. split; [|exact Hps].
  now apply (assemble_plain_keys ps []).
Qed.

End EchoableObjects.

(** ** Worked inputs of the further properties *)

Lemma blank_value_falls_back_witness :
  let value := String "009" (String "010" "  ") in
  let env : ProcessEnv := {[ REACT_APP_BACKEND_URL := value ]} in
  env !! REACT_APP_BACKEND_URL = Some value
  /\ ascii_blank value = true
  /\ getBackendBaseUrl env = "http://localhost:3001".
Proof.
  intros value env.
  assert (Hv : env !! REACT_APP_BACKEND_URL = Some value) by reflexivity.
  assert (Hb : ascii_blank value = true) by reflexivity.
  split; [exact Hv|]. split; [exact Hb|].
  exact (blank_value_falls_back env value Hv Hb).
Defined.

Lemma visible_value_is_kept_witness :
  let value := "  http://api.example.com/ " in
  let env : ProcessEnv := {[ REACT_APP_BACKEND_URL := value ]} in
  env !! REACT_APP_BACKEND_URL = Some value
  /\ has_visible value = true
  /\ getBackendBaseUrl env = value.
Proof.
  intros value env.
  assert (Hv : env !! REACT_APP_BACKEND_URL = Some value) by reflexivity.
  assert (Hs : has_visible value = true) by reflexivity.
  split; [exact Hv|]. split; [exact Hs|].
  exact (visible_value_is_kept env value Hv Hs).
Defined.

Lemma network_failure_is_passed_on_witness :
  let e := TypeError "Failed to fetch" in
  let net : Transport := settling (Rejected e) in
  (forall init, net (getBackendBaseUrl ∅ +:+ "/x") init = Rejected e)
  /\ run net (apiGet ∅ "/x" VUndefined) = Rejected e
  /\ run net (apiPost ∅ "/x" VNull VUndefined) = Rejected e.
Proof.
  intros e net.
  assert (Hnet : forall init, net (getBackendBaseUrl ∅ +:+ "/x") init = Rejected e)
    by (intros init; reflexivity).
  split; [exact Hnet|].
  exact (network_failure_is_passed_on net ∅ "/x" VNull VUndefined e Hnet).
Defined.

Lemma apiPost_headers_witness :
  let net := answering (response 200 text_header "ok") in
  exists init,
    requests net (apiPost ∅ "/x" VNull (VString "tok123"))
    = [("http://localhost:3001/x", init)]
    /\ size (Request.headers init) = 2%nat
    /\ "Accept" <> "Content-Type"
    /\ "Accept" <> "Authorization"
    /\ Request.headers init !! "Accept" = None.
Proof.
  intros net.
  destruct (apiPost_headers net ∅ "/x" VNull (VString "tok123"))
    as (init & Hr & Hsize & Hother).
  assert (H1 : "Accept" <> "Content-Type") by discriminate.
  assert (H2 : "Accept" <> "Authorization") by discriminate.
  exists init. split; [exact Hr|]. split; [exact Hsize|].
  split; [exact H1|]. split; [exact H2|]. exact (Hother _ H1 H2).
Defined.

Lemma resolves_only_when_ok_witness :
  let resp := response 200 text_header "hello" in
  let net : Transport := answering resp in
  run net (apiGet ∅ "/x" VUndefined) = Fulfilled (VString "hello")
  /\ exists init resp',
       net (getBackendBaseUrl ∅ +:+ "/x") init = Fulfilled resp'
       /\ Response.ok resp' = true
       /\ decoded resp' = Fulfilled (VString "hello")
       /\ VString "hello" <> VUndefined.
Proof.
  intros resp net.
  assert (Hrun : run net (apiGet ∅ "/x" VUndefined) = Fulfilled (VString "hello"))
    by reflexivity.
  split; [exact Hrun|].
  exact (resolves_only_when_ok net ∅ "/x" VNull VUndefined _ (or_introl Hrun)).
Defined.

Lemma text_failure_message_witness :
  let missing := response 404 text_header "missing" in
  let silent := response 500 [] "" in
  (Response.ok missing = false
   /\ JSString.includes "application/json" (contentType missing) = false
   /\ run (answering missing) (apiGet ∅ "/x" VUndefined)
      = Rejected (Error "missing"))
  /\ (Response.ok silent = false
      /\ JSString.includes "application/json" (contentType silent) = false
      /\ run (answering silent) (apiPost ∅ "/x" VNull VUndefined)
         = Rejected (Error "")).
Proof.
  intros missing silent. split.
  - assert (Hok : Response.ok missing = false) by reflexivity.
    assert (Hct : JSString.includes "application/json" (contentType missing) = false)
      by reflexivity.
    split; [exact Hok|]. split; [exact Hct|].
    exact (proj1 (text_failure_message ∅ "/x" VNull VUndefined missing Hok Hct)).
  - assert (Hok : Response.ok silent = false) by reflexivity.
    assert (Hct : JSString.includes "application/json" (contentType silent) = false)
      by reflexivity.
    split; [exact Hok|]. split; [exact Hct|].
    exact (proj2 (text_failure_message ∅ "/x" VNull VUndefined silent Hok Hct)).
Defined.

Lemma authorization_of_string_token_witness :
  let net := answering (response 200 text_header "ok") in
  (exists init,
     requests net (apiGet ∅ "/x" (VString " tok 123 "))
     = [("http://localhost:3001/x", init)]
     /\ " tok 123 " <> ""
     /\ Request.headers init !! "Authorization" = Some "Bearer  tok 123 ")
  /\ (exists init,
        requests net (apiGet ∅ "/x" (VString ""))
        = [("http://localhost:3001/x", init)]
        /\ Request.headers init !! "Authorization" = None).
Proof.
  intros net. split.
  - destruct (authorization_of_string_token net ∅ "/x" VNull " tok 123 ")
      as (gi & pi & Hg & _ & Hpresent & _).
    assert (Hne : " tok 123 " <> "") by discriminate.
    exists gi. split; [exact Hg|]. split; [exact Hne|].
    exact (proj1 (Hpresent Hne)).
  - destruct (authorization_of_string_token net ∅ "/x" VNull "")
      as (gi & pi & Hg & _ & _ & Habsent).
    exists gi. split; [exact Hg|]. exact (proj1 (Habsent eq_refl)).
Defined.

Lemma posted_body_is_echoed_witness :
  let body :=
    VObject [("name", VString "Ada");
             ("n", VNumber "1");
             ("tags", VArray [VNull; VBoolean true; VString "x/y"])] in
  echoable (nullish_coalesce body (VObject []))
  /\ run echo_server (apiPost ∅ "/x" body VUndefined) = Fulfilled body
  /\ echoable (nullish_coalesce VUndefined (VObject []))
  /\ run echo_server (apiPost ∅ "/x" VUndefined VUndefined)
     = Fulfilled (VObject []).
Proof.
  intros body.
  assert (He : echoable (nullish_coalesce body (VObject [])))
    by (cbn; repeat split; reflexivity).
  assert (He' : echoable (nullish_coalesce VUndefined (VObject [])))
    by (cbn; repeat split; reflexivity).
  split; [exact He|]. split; [|split; [exact He'|]].
  - destruct (posted_body_is_echoed ∅ "/x" body VUndefined He)
      as (init & payload & _ & _ & _ & Hrun).
    exact Hrun.
  - destruct (posted_body_is_echoed ∅ "/x" VUndefined VUndefined He')
      as (init & payload & _ & _ & _ & Hrun).
    exact Hrun.
Defined.

Lemma json_string_failure_message_witness :
  let m := "line one" +:+ String "010" ("say " +:+ quoted "no") in
  let resp := response 400 json_header (JSON.QuoteJSONString m) in
  Response.ok resp = false
  /\ JSString.includes "application/json" (contentType resp) = true
  /\ no_surrogate m = true
  /\ Response.body resp = JSON.QuoteJSONString m
  /\ run (answering resp) (apiGet ∅ "/x" VUndefined) = Rejected (Error m).
Proof.
  intros m resp.
  assert (Hok : Response.ok resp = false) by reflexivity.
  assert (Hct : JSString.includes "application/json" (contentType resp) = true)
    by reflexivity.
  assert (Hm : no_surrogate m = true) by reflexivity.
  assert (Hb : Response.body resp = JSON.QuoteJSONString m) by reflexivity.
  do 4 (split; [assumption|]).
  exact (proj1 (json_string_failure_message ∅ "/x" VNull VUndefined resp m
                  Hok Hct Hm Hb)).
Defined.

(** ** Why a call is rejected *)

Section Rejections.

Context {NM : NumberModel}.

Lemma run_fetch_rejected {A : Type} (net : Transport) url init
    (k : Response.t -> Async A) (e : JSError) :
  run net (Fetch url init k) = Rejected e ->
  net url init = Rejected e
  \/ exists resp, net url init = Fulfilled resp /\ run net (k resp) = Rejected e.
Proof.
  cbn [run]. destruct (net url init) as [resp|e'].
  - intros H. right. eauto.
  - intros H. left. inversion H. reflexivity.
Qed.

Lemma settle_rejected resp e :
  settle resp (decoded resp) = Rejected e ->
  (Response.ok resp = false
   /\ exists detail m,
        decoded resp = Fulfilled detail /\ e = Error m
        /\ (forall s, detail = VString s -> m = s)
        /\ ((forall s, detail <> VString s) -> JSON.stringify detail = VString m))
  \/ (decoded resp = Rejected e /\ e = SyntaxError (Response.body resp)).
Proof.
  destruct (decoded resp) as [detail|e'] eqn:Hd.
  - destruct (Response.ok resp) eqn:Hok.
    + unfold settle. rewrite Hok. discriminate.
    + destruct (settle_failure resp detail Hok (decoded_defined _ _ Hd))
        as (m & Hm & Hs & Hj).
      rewrite Hm. intros H. inversion H; subst. left.
      split; [reflexivity|]. exists detail, m. auto.
  - intros H. right.
    assert (He : e' = e).
    { unfold settle in H. destruct (Response.ok resp); now inversion H. }
    subst e'. split; [reflexivity|].
    now destruct (decoded_rejected _ _ Hd) as (_ & _ & ->).
Qed.

(** X12.  A call whose arguments are values of JSON or [undefined], and
    whose response, if one arrives, has its body delivered in full, is
    rejected for one of three reasons only: the network failed, and the
    error is the network's; the response is not ok and its body decoded,
    and the error is the client's [Error] with the message made from the
    detail; or the body, announced as JSON, did not parse, and the error
    is the parser's [SyntaxError]. *)
Theorem rejected_for_one_of_three_reasons
    (net : Transport) env path body token e :
  run net (apiGet env path token) = Rejected e
  \/ run net (apiPost env path body token) = Rejected e ->
  exists init,
    net (getBackendBaseUrl env +:+ path) init = Rejected e
    \/ exists resp,
         net (getBackendBaseUrl env +:+ path) init = Fulfilled resp
         /\ ((Response.ok resp = false
              /\ exists detail m,
                   decoded resp = Fulfilled detail /\ e = Error m
                   /\ (forall s, detail = VString s -> m = s)
                   /\ ((forall s, detail <> VString s) ->
                       JSON.stringify detail = VString m))
             \/ (decoded resp = Rejected e
                 /\ e = SyntaxError (Response.body resp))).
Proof.
  destruct (apiGet_shape env path token)
    as (get_init & get_k & -> & _ & _ & _ & Hget).
  destruct (apiPost_shape env path body token)
    as (post_init & post_k & -> & _ & _ & _ & Hpost).
  intros [H|H]; apply run_fetch_rejected in H.
  - exists get_init. destruct H as [H | (resp & Hnet & Hk)]; [now left|].
    right. exists resp. split; [exact Hnet|].
    rewrite (proj1 (Hget net resp)) in Hk. now apply settle_rejected.
  - exists post_init. destruct H as [H | (resp & Hnet & Hk)]; [now left|].
    right. exists resp. split; [exact Hnet|].
    rewrite (proj1 (Hpost net resp)) in Hk. now apply settle_rejected.
Qed.

End Rejections.

Lemma rejected_for_one_of_three_reasons_witness :
  let net : Transport := answering (response 404 text_header "missing") in
  run net (apiGet ∅ "/x" VUndefined) = Rejected (Error "missing")
  /\ exists init,
       net (getBackendBaseUrl ∅ +:+ "/x") init = Rejected (Error "missing")
       \/ exists resp,
            net (getBackendBaseUrl ∅ +:+ "/x") init = Fulfilled resp
            /\ ((Response.ok resp = false
                 /\ exists detail m,
                      decoded resp = Fulfilled detail /\ Error "missing" = Error m
                      /\ (forall s, detail = VString s -> m = s)
                      /\ ((forall s, detail <> VString s) ->
                          JSON.stringify detail = VString m))
                \/ (decoded resp = Rejected (Error "missing")
                    /\ Error "missing" = SyntaxError (Response.body resp))).
Proof.
  intros net.
  assert (Hrun : run net (apiGet ∅ "/x" VUndefined) = Rejected (Error "missing"))
    by reflexivity.
  split; [exact Hrun|].
  exact (rejected_for_one_of_three_reasons net ∅ "/x" VNull VUndefined _
           (or_introl Hrun)).
Defined.

(** ** Calls in their surroundings *)

Section Surroundings.

Context {NM : NumberModel}.

Lemma exec_await {A : Type} (net : Transport) meanwhile w (p : Settled A) :
  InWorld.exec net meanwhile w (InWorld.await p) = (p, w, []).
Proof. destruct p; reflexivity. Qed.

(** Handling the response does nothing that is seen from outside. *)
Lemma exec_handler (net : Transport) meanwhile w (resp : Response.t) :
  InWorld.exec net meanwhile w
    (if negb (Response.ok resp) then
       detail ← InWorld.await
                  (if JSString.includes "application/json" (contentType resp)
                   then Response.json resp else Response.text resp);
       InWorld.throw (Error_new (if String.eqb (typeof detail) "string"
                                 then detail else JSON.stringify detail))
     else
       InWorld.await
         (if JSString.includes "application/json" (contentType resp)
          then Response.json resp else Response.text resp))
  = (settle resp (decoded resp), w, []).
Proof.
  unfold settle. fold (decoded resp).
  destruct (Response.ok resp); cbn [negb].
  - apply exec_await.
  - destruct (decoded resp); reflexivity.
Qed.

Lemma exec_getBackendBaseUrl (net : Transport) meanwhile w :
  InWorld.exec net meanwhile w InWorld.getBackendBaseUrl
  = (Fulfilled (getBackendBaseUrl (InWorld.process_env w)), w,
     [InWorld.EReadEnv REACT_APP_BACKEND_URL]).
Proof. reflexivity. Qed.

Lemma exec_bind {A B : Type} (net : Transport) meanwhile w
    (m : InWorld.Script A) (f : A -> InWorld.Script B) :
  InWorld.exec net meanwhile w (m ≫= f)
  = match InWorld.exec net meanwhile w m with
    | (Fulfilled a, w', t) =>
        let '(r, w'', t') := InWorld.exec net meanwhile w' (f a) in
        (r, w'', t ++ t')
    | (Rejected e, w', t) => (Rejected e, w', t)
    end.
Proof.
  unfold mbind, InWorld.Script_mbind. revert w.
  induction m as [a | e | name k IH | name k IH | name v k IH | url init k IH];
    intros w; cbn [InWorld.Script_bind InWorld.exec].
  - destruct (InWorld.exec net meanwhile w (f a)) as [[r w''] t']. reflexivity.
  - reflexivity.
  - rewrite IH.
    destruct (InWorld.exec net meanwhile w (k _)) as [[[a|e] w'] t]; [|reflexivity].
    destruct (InWorld.exec net meanwhile w' (f a)) as [[r w''] t']. reflexivity.
  - rewrite IH.
    destruct (InWorld.exec net meanwhile w (k _)) as [[[a|e] w'] t]; [|reflexivity].
    destruct (InWorld.exec net meanwhile w' (f a)) as [[r w''] t']. reflexivity.
  - rewrite IH.
    destruct (InWorld.exec net meanwhile _ k) as [[[a|e] w'] t]; [|reflexivity].
    destruct (InWorld.exec net meanwhile w' (f a)) as [[r w''] t']. reflexivity.
  - destruct (net url init) as [resp|e]; [|reflexivity].
    rewrite IH.
    destruct (InWorld.exec net meanwhile _ (k resp)) as [[[a|e] w'] t];
      [|reflexivity].
    destruct (InWorld.exec net meanwhile w' (f a)) as [[r w''] t']. reflexivity.
Qed.

Lemma exec_fetch (net : Transport) meanwhile w url init :
  InWorld.exec net meanwhile w (InWorld.fetch url init)
  = (net url init, meanwhile w, [InWorld.EFetch url init]).
Proof.
  unfold InWorld.fetch. cbn [InWorld.exec].
  destruct (net url init); reflexivity.
Qed.

Lemma run_fetch_bind {A : Type} (net : Transport) url init
    (f : Response.t -> Async A) :
  run net (fetch url init ≫= f)
  = match net url init with
    | Fulfilled resp => run net (f resp)
    | Rejected e => Rejected e
    end.
Proof. reflexivity. Qed.

(** In a world, [apiGet] reads the variable, issues the request of the
    typed program for the value read, and settles as that program. *)
Lemma exec_apiGet (net : Transport) meanwhile w path token :
  exists init,
    requests net (apiGet (InWorld.process_env w) path token)
    = [(getBackendBaseUrl (InWorld.process_env w) +:+ path, init)]
    /\ InWorld.exec net meanwhile w (InWorld.apiGet path token)
       = (run net (apiGet (InWorld.process_env w) path token),
          meanwhile w,
          [InWorld.EReadEnv REACT_APP_BACKEND_URL;
           InWorld.EFetch (getBackendBaseUrl (InWorld.process_env w) +:+ path) init]).
Proof.
  eexists. split.
  - unfold apiGet. apply requests_one. intros resp. cbn [Async_bind].
    apply requests_handler.
  - unfold InWorld.apiGet, apiGet.
    rewrite exec_bind, exec_getBackendBaseUrl. cbv zeta.
    rewrite exec_bind, exec_fetch, run_fetch_bind.
    destruct (net _ _) as [resp|e]; [|reflexivity].
    change (Headers.or_empty (Headers.get (Response.headers resp) "content-type"))
      with (contentType resp).
    rewrite (exec_handler net meanwhile (meanwhile w) resp).
    rewrite (run_handler net resp). reflexivity.
Qed.

Lemma exec_apiPost (net : Transport) meanwhile w path body token :
  exists init,
    requests net (apiPost (InWorld.process_env w) path body token)
    = [(getBackendBaseUrl (InWorld.process_env w) +:+ path, init)]
    /\ InWorld.exec net meanwhile w (InWorld.apiPost path body token)
       = (run net (apiPost (InWorld.process_env w) path body token),
          meanwhile w,
          [InWorld.EReadEnv REACT_APP_BACKEND_URL;
           InWorld.EFetch (getBackendBaseUrl (InWorld.process_env w) +:+ path) init]).
Proof.
  eexists. split.
  - unfold apiPost. apply requests_one. intros resp. cbn [Async_bind].
    apply requests_handler.
  - unfold InWorld.apiPost, apiPost.
    rewrite exec_bind, exec_getBackendBaseUrl. cbv zeta.
    rewrite exec_bind, exec_fetch, run_fetch_bind.
    destruct (net _ _) as [resp|e]; [|reflexivity].
    change (Headers.or_empty (Headers.get (Response.headers resp) "content-type"))
      with (contentType resp).
    rewrite (exec_handler net meanwhile (meanwhile w) resp).
    rewrite (run_handler net resp). reflexivity.
Qed.

End Surroundings.

Section Determinism.

Context {NM : NumberModel}.

Lemma exec_apiGet_parts (net : Transport) meanwhile w path token :
  exists init,
    requests net (apiGet (InWorld.process_env w) path token)
    = [(getBackendBaseUrl (InWorld.process_env w) +:+ path, init)]
    /\ InWorld.outcome (InWorld.exec net meanwhile w (InWorld.apiGet path token))
       = run net (apiGet (InWorld.process_env w) path token)
    /\ InWorld.world_after
         (InWorld.exec net meanwhile w (InWorld.apiGet path token))
       = meanwhile w
    /\ InWorld.trace (InWorld.exec net meanwhile w (InWorld.apiGet path token))
       = [InWorld.EReadEnv REACT_APP_BACKEND_URL;
          InWorld.EFetch (getBackendBaseUrl (InWorld.process_env w) +:+ path) init].
Proof.
  destruct (exec_apiGet net meanwhile w path token) as (init & Hr & ->).
  exists init. auto.
Qed.

Lemma exec_apiPost_parts (net : Transport) meanwhile w path body token :
  exists init,
    requests net (apiPost (InWorld.process_env w) path body token)
    = [(getBackendBaseUrl (InWorld.process_env w) +:+ path, init)]
    /\ InWorld.outcome
         (InWorld.exec net meanwhile w (InWorld.apiPost path body token))
       = run net (apiPost (InWorld.process_env w) path body token)
    /\ InWorld.world_after
         (InWorld.exec net meanwhile w (InWorld.apiPost path body token))
       = meanwhile w
    /\ InWorld.trace
         (InWorld.exec net meanwhile w (InWorld.apiPost path body token))
       = [InWorld.EReadEnv REACT_APP_BACKEND_URL;
          InWorld.EFetch (getBackendBaseUrl (InWorld.process_env w) +:+ path) init].
Proof.
  destruct (exec_apiPost net meanwhile w path body token) as (init & Hr & ->).
  exists init. auto.
Qed.

(** C10.  [getBackendBaseUrl], [apiGet] and [apiPost] are deterministic
    functions of their arguments, of the value the environment variable
    has at the call, and of the network's answer to the request issued.
    Run in a world that holds the environment and whatever state could
    be kept between calls, each call reads the variable once, when it is
    called and before its request, and neither reads nor writes kept
    state: it leaves the world as it found it (but for what the rest of
    the program does while the call waits).  So two calls with the same
    arguments, made in worlds where the variable has the same value and
    the request gets the same answer, do the same and settle alike,
    whatever else differs in the worlds or in the network; and a call
    made after an earlier one, the variable having been set anew in
    between, settles by the new value. *)
Theorem calls_are_deterministic
    (net1 net2 : Transport)
    (meanwhile1 meanwhile2 : InWorld.World -> InWorld.World)
    (w1 w2 : InWorld.World) path body token :
  InWorld.process_env w1 !! REACT_APP_BACKEND_URL
  = InWorld.process_env w2 !! REACT_APP_BACKEND_URL ->
  (InWorld.exec net1 meanwhile1 w1 InWorld.getBackendBaseUrl
   = (Fulfilled (getBackendBaseUrl (InWorld.process_env w1)), w1,
      [InWorld.EReadEnv REACT_APP_BACKEND_URL])
   /\ InWorld.outcome (InWorld.exec net1 meanwhile1 w1 InWorld.getBackendBaseUrl)
      = InWorld.outcome (InWorld.exec net2 meanwhile2 w2 InWorld.getBackendBaseUrl))
  /\ (exists init,
        let url := getBackendBaseUrl (InWorld.process_env w1) +:+ path in
        let call := InWorld.apiGet path token in
        InWorld.trace (InWorld.exec net1 meanwhile1 w1 call)
        = [InWorld.EReadEnv REACT_APP_BACKEND_URL; InWorld.EFetch url init]
        /\ InWorld.world_after (InWorld.exec net1 meanwhile1 w1 call)
           = meanwhile1 w1
        /\ InWorld.outcome (InWorld.exec net1 meanwhile1 w1 call)
           = run net1 (apiGet (InWorld.process_env w1) path token)
        /\ (net1 url init = net2 url init ->
            InWorld.outcome (InWorld.exec net1 meanwhile1 w1 call)
            = InWorld.outcome (InWorld.exec net2 meanwhile2 w2 call)
            /\ InWorld.trace (InWorld.exec net1 meanwhile1 w1 call)
               = InWorld.trace (InWorld.exec net2 meanwhile2 w2 call))
        /\ (forall value,
              InWorld.outcome
                (InWorld.exec net1 meanwhile1
                   (InWorld.set_env REACT_APP_BACKEND_URL value
                      (InWorld.world_after (InWorld.exec net1 meanwhile1 w1 call)))
                   call)
              = run net1
                  (apiGet (<[ REACT_APP_BACKEND_URL := value ]>
                             (InWorld.process_env (meanwhile1 w1))) path token)))
  /\ (exists init,
        let url := getBackendBaseUrl (InWorld.process_env w1) +:+ path in
        let call := InWorld.apiPost path body token in
        InWorld.trace (InWorld.exec net1 meanwhile1 w1 call)
        = [InWorld.EReadEnv REACT_APP_BACKEND_URL; InWorld.EFetch url init]
        /\ InWorld.world_after (InWorld.exec net1 meanwhile1 w1 call)
           = meanwhile1 w1
        /\ InWorld.outcome (InWorld.exec net1 meanwhile1 w1 call)
           = run net1 (apiPost (InWorld.process_env w1) path body token)
        /\ (net1 url init = net2 url init ->
            InWorld.outcome (InWorld.exec net1 meanwhile1 w1 call)
            = InWorld.outcome (InWorld.exec net2 meanwhile2 w2 call)
            /\ InWorld.trace (InWorld.exec net1 meanwhile1 w1 call)
               = InWorld.trace (InWorld.exec net2 meanwhile2 w2 call))
        /\ (forall value,
              InWorld.outcome
                (InWorld.exec net1 meanwhile1
                   (InWorld.set_env REACT_APP_BACKEND_URL value
                      (InWorld.world_after (InWorld.exec net1 meanwhile1 w1 call)))
                   call)
              = run net1
                  (apiPost (<[ REACT_APP_BACKEND_URL := value ]>
                              (InWorld.process_env (meanwhile1 w1)))
                     path body token))).
Proof.
  intros Henv.
  destruct (calls_depend_on_variable_and_answers
              (InWorld.process_env w1) (InWorld.process_env w2)
              net1 net2 path body token Henv) as (Hbase & Hget & Hpost).
  split; [|split].
  - split; [apply exec_getBackendBaseUrl|].
    rewrite !exec_getBackendBaseUrl. unfold InWorld.outcome. cbn [fst].
    now rewrite Hbase.
  - destruct (exec_apiGet_parts net1 meanwhile1 w1 path token)
      as (init & Hr1 & Ho1 & Hw1 & Ht1).
    destruct (exec_apiGet_parts net2 meanwhile2 w2 path token)
      as (init2 & Hr2 & Ho2 & Hw2 & Ht2).
    exists init. cbv zeta.
    split; [exact Ht1|]. split; [exact Hw1|]. split; [exact Ho1|]. split.
    + intros Hnet. destruct Hget as [Hrun Hreq].
      * intros url' init' Hin. rewrite Hr1 in Hin.
        destruct Hin as [Hin | []]. inversion Hin; subst. exact Hnet.
      * rewrite Ho1, Ho2, Ht1, Ht2. split; [exact Hrun|].
        rewrite Hr1, Hr2 in Hreq. inversion Hreq. reflexivity.
    + intros value. rewrite Hw1.
      destruct (exec_apiGet_parts net1 meanwhile1
                  (InWorld.set_env REACT_APP_BACKEND_URL value (meanwhile1 w1))
                  path token) as (init3 & _ & Ho3 & _).
      exact Ho3.
  - destruct (exec_apiPost_parts net1 meanwhile1 w1 path body token)
      as (init & Hr1 & Ho1 & Hw1 & Ht1).
    destruct (exec_apiPost_parts net2 meanwhile2 w2 path body token)
      as (init2 & Hr2 & Ho2 & Hw2 & Ht2).
    exists init. cbv zeta.
    split; [exact Ht1|]. split; [exact Hw1|]. split; [exact Ho1|]. split.
    + intros Hnet. destruct Hpost as [Hrun Hreq].
      * intros url' init' Hin. rewrite Hr1 in Hin.
        destruct Hin as [Hin | []]. inversion Hin; subst. exact Hnet.
      * rewrite Ho1, Ho2, Ht1, Ht2. split; [exact Hrun|].
        rewrite Hr1, Hr2 in Hreq. inversion Hreq. reflexivity.
    + intros value. rewrite Hw1.
      destruct (exec_apiPost_parts net1 meanwhile1
                  (InWorld.set_env REACT_APP_BACKEND_URL value (meanwhile1 w1))
                  path body token) as (init3 & _ & Ho3 & _).
      exact Ho3.
Qed.

End Determinism.

(** Two worlds that agree on the variable and differ in the rest of the
    environment and in the state that is kept, and two networks that
    agree on the request issued. *)
Lemma calls_are_deterministic_witness :
  let w1 : InWorld.World :=
    {| InWorld.process_env :=
         <[ "NODE_ENV" := "production" ]>
           {[ REACT_APP_BACKEND_URL := "http://api.example.com" ]};
       InWorld.retained := {[ "base" := VString "http://stale.example.com" ]} |} in
  let w2 : InWorld.World :=
    {| InWorld.process_env :=
         {[ REACT_APP_BACKEND_URL := "http://api.example.com" ]};
       InWorld.retained := ∅ |} in
  let resp := response 200 json_header json_a_1 in
  let net1 : Transport := answering resp in
  let net2 : Transport := fun url _ =>
    if String.eqb url "http://api.example.com/x"
    then Fulfilled resp
    else Rejected (TypeError "Failed to fetch") in
  let meanwhile1 := InWorld.set_env "NODE_ENV" "test" in
  let meanwhile2 := fun w : InWorld.World => w in
  InWorld.process_env w1 !! REACT_APP_BACKEND_URL
  = InWorld.process_env w2 !! REACT_APP_BACKEND_URL
  /\ InWorld.outcome (InWorld.exec net1 meanwhile1 w1 (InWorld.apiGet "/x" VUndefined))
     = InWorld.outcome (InWorld.exec net2 meanwhile2 w2 (InWorld.apiGet "/x" VUndefined))
  /\ InWorld.outcome (InWorld.exec net1 meanwhile1 w1 (InWorld.apiPost "/x" VNull VUndefined))
     = InWorld.outcome (InWorld.exec net2 meanwhile2 w2 (InWorld.apiPost "/x" VNull VUndefined))
  /\ InWorld.outcome
       (InWorld.exec net1 meanwhile1
          (InWorld.set_env REACT_APP_BACKEND_URL "http://other.example.com"
             (InWorld.world_after
                (InWorld.exec net1 meanwhile1 w1 (InWorld.apiGet "/x" VUndefined))))
          (InWorld.apiGet "/x" VUndefined))
     = run net1
         (apiGet (<[ REACT_APP_BACKEND_URL := "http://other.example.com" ]>
                    (InWorld.process_env (meanwhile1 w1))) "/x" VUndefined).
Proof.
  intros w1 w2 resp net1 net2 meanwhile1 meanwhile2.
  assert (Henv : InWorld.process_env w1 !! REACT_APP_BACKEND_URL
                 = InWorld.process_env w2 !! REACT_APP_BACKEND_URL)
    by reflexivity.
  destruct (calls_are_deterministic net1 net2 meanwhile1 meanwhile2 w1 w2
              "/x" VNull VUndefined Henv)
    as (_ & (gi & _ & _ & _ & Hget & Hnext) & (pi & _ & _ & _ & Hpost & _)).
  split; [exact Henv|]. split; [|split].
  - apply Hget. reflexivity.
  - apply Hpost. reflexivity.
  - apply Hnext.
Defined.

(** The script that remembers is told apart from the client's: after a
    first call and a change of the variable it still answers the old
    value and has written to the kept state, where [getBackendBaseUrl]
    answers the new value and has written nothing. *)
Example remembering_script_is_told_apart :
  let w : InWorld.World :=
    {| InWorld.process_env := {[ REACT_APP_BACKEND_URL := "http://a.example.com" ]};
       InWorld.retained := ∅ |} in
  let net : Transport := answering (response 200 text_header "ok") in
  let later (p : InWorld.Script string) :=
    InWorld.exec net (fun w => w)
      (InWorld.set_env REACT_APP_BACKEND_URL "http://b.example.com"
         (InWorld.world_after (InWorld.exec net (fun w => w) w p))) p in
  InWorld.outcome (later remembering_base_url) = Fulfilled "http://a.example.com"
  /\ InWorld.outcome (later InWorld.getBackendBaseUrl)
     = Fulfilled "http://b.example.com"
  /\ InWorld.retained
       (InWorld.world_after (InWorld.exec net (fun w => w) w remembering_base_url))
     <> InWorld.retained w
  /\ InWorld.world_after
       (InWorld.exec net (fun w => w) w InWorld.getBackendBaseUrl) = w.
Proof.
  intros w net later. split; [reflexivity|]. split; [reflexivity|].
  split; [|reflexivity].
  intros H. apply (f_equal (fun m => m !! "base")) in H.
  vm_compute in H. discriminate.
Qed.
